(** * DealFlow: the model-access and persistence adapters

    A shallow embedding of [src/services/history.ts] and
    [src/services/gemini.ts].

    - JavaScript values are the inductive [value]; an object is the list of
      its own enumerable properties in enumeration order.
    - What [localStorage] and the Firestore documents hold is [json]: plain
      data, in which the [undefined] value cannot be written.
    - The adapters run in a small state-and-exception monad over [world]
      (the local storage, the Firestore collections, the console).
    - What the platform decides for one call (the generated identifier, the
      clock, whether the network call throws) is the record [env]. *)

From Stdlib Require Import ZArith String Ascii List Bool Lia.
From stdpp Require Import base option list gmap strings.

Set Warnings "-register-all".

Local Open Scope string_scope.
Local Open Scope Z_scope.

(** ** JavaScript values *)

(** Numbers are the integers: timestamps and scores.  The non-finite
    numbers are not represented. *)
Inductive value : Type :=
| VUndefined
| VNull
| VBool (b : bool)
| VNum (n : Z)
| VStr (s : string)
| VArr (items : list value)
| VObj (fields : list (string * value)).

(** An object as the code handles it: its properties, in order. *)
Abbreviation obj := (list (string * value)).

(** Plain data: what a JSON text or a Firestore document can hold. *)
Inductive json : Type :=
| JNull
| JBool (b : bool)
| JNum (n : Z)
| JStr (s : string)
| JArr (items : list json)
| JObj (fields : list (string * json)).

Abbreviation jobj := (list (string * json)).

(** Induction over the values inside arrays and objects. *)
Section value_induction.
  Variable P : value -> Prop.
  Hypothesis Hundef : P VUndefined.
  Hypothesis Hnull : P VNull.
  Hypothesis Hbool : forall b, P (VBool b).
  Hypothesis Hnum : forall n, P (VNum n).
  Hypothesis Hstr : forall s, P (VStr s).
  Hypothesis Harr : forall l, Forall P l -> P (VArr l).
  Hypothesis Hobj : forall o, Forall (fun kv => P (snd kv)) o -> P (VObj o).

Fixpoint value_nested_ind (v : value) : P v :=
    match v with
    | VUndefined => Hundef
    | VNull => Hnull
    | VBool b => Hbool b
    | VNum n => Hnum n
    | VStr s => Hstr s
    | VArr l =>
        Harr l ((fix items (l : list value) : Forall P l :=
                   match l with
                   | [] => List.Forall_nil P
                   | x :: r => List.Forall_cons P x r (value_nested_ind x) (items r)
                   end) l)
    | VObj o =>
        Hobj o ((fix members (o : obj) : Forall (fun kv => P (snd kv)) o :=
                   match o with
                   | [] => List.Forall_nil _
                   | kv :: r =>
                       List.Forall_cons (fun kv => P (snd kv)) kv r
                         (value_nested_ind (snd kv)) (members r)
                   end) o)
    end.
End value_induction.

Section json_induction.
  Variable P : json -> Prop.
  Hypothesis Hnull : P JNull.
  Hypothesis Hbool : forall b, P (JBool b).
  Hypothesis Hnum : forall n, P (JNum n).
  Hypothesis Hstr : forall s, P (JStr s).
  Hypothesis Harr : forall l, Forall P l -> P (JArr l).
  Hypothesis Hobj : forall o, Forall (fun kv => P (snd kv)) o -> P (JObj o).

Fixpoint json_nested_ind (j : json) : P j :=
    match j with
    | JNull => Hnull
    | JBool b => Hbool b
    | JNum n => Hnum n
    | JStr s => Hstr s
    | JArr l =>
        Harr l ((fix items (l : list json) : Forall P l :=
                   match l with
                   | [] => List.Forall_nil P
                   | x :: r => List.Forall_cons P x r (json_nested_ind x) (items r)
                   end) l)
    | JObj o =>
        Hobj o ((fix members (o : jobj) : Forall (fun kv => P (snd kv)) o :=
                   match o with
                   | [] => List.Forall_nil _
                   | kv :: r =>
                       List.Forall_cons (fun kv => P (snd kv)) kv r
                         (json_nested_ind (snd kv)) (members r)
                   end) o)
    end.
End json_induction.

(** ** The JavaScript operators the adapters use *)

(** [!!v]: the falsy values are undefined, null, false, 0 and the empty
    string. *)
Definition truthy (v : value) : bool :=
  match v with
  | VUndefined | VNull => false
  | VBool b => b
  | VNum n => negb (n =? 0)
  | VStr s => negb (String.eqb s "")
  | VArr _ | VObj _ => true
  end.

(** [a || b] *)
Definition js_or (a b : value) : value := if truthy a then a else b.

(** [o.k]: the property, or undefined. *)
Fixpoint get_prop (o : obj) (k : string) : value :=
  match o with
  | [] => VUndefined
  | (k', v) :: r => if String.eqb k' k then v else get_prop r k
  end.

Fixpoint has_key {A} (o : list (string * A)) (k : string) : bool :=
  match o with
  | [] => false
  | (k', _) :: r => String.eqb k' k || has_key r k
  end.

(** [o[k] = v]: an existing property keeps its place, a new one goes last. *)
Fixpoint set_prop (o : obj) (k : string) (v : value) : obj :=
  match o with
  | [] => [(k, v)]
  | (k', v') :: r =>
      if String.eqb k' k then (k', v) :: r else (k', v') :: set_prop r k v
  end.

(** [a === b], where [a] has just come out of [JSON.parse]: two objects or
    two arrays are then never the same reference. *)
Definition strict_eq (a b : value) : bool :=
  match a, b with
  | VUndefined, VUndefined => true
  | VNull, VNull => true
  | VBool x, VBool y => Bool.eqb x y
  | VNum x, VNum y => x =? y
  | VStr x, VStr y => String.eqb x y
  | _, _ => false
  end.

(** [l.findIndex(p)]: the first index where [p] holds, or -1. *)
Fixpoint findIndex {A} (p : A -> bool) (l : list A) : Z :=
  match l with
  | [] => -1
  | x :: r =>
      if p x then 0
      else let i := findIndex p r in if i <? 0 then -1 else i + 1
  end.

(** ** history.ts: sanitizeForFirestore *)

(** [v === undefined] *)
Definition is_undefined (v : value) : bool :=
  match v with VUndefined => true | _ => false end.

(** The [reduce] over [Object.entries(obj)] starts from the empty object
    and assigns [acc[key]] for each entry whose value is not undefined. *)
Fixpoint sanitizeForFirestore (v : value) : value :=
  match v with
  | VArr l => VArr (map sanitizeForFirestore l)
  | VObj o =>
      VObj (fold_left
              (fun acc kv =>
                 if is_undefined (snd kv) then acc
                 else set_prop acc (fst kv) (sanitizeForFirestore (snd kv)))
              o [])
  | _ => v
  end.

(** The specification's words: every field whose value is undefined is
    removed, recursively through objects and sequences. *)

Fixpoint strip_undefined (v : value) : value :=
  match v with
  | VArr l => VArr (map strip_undefined l)
  | VObj o =>
      VObj (List.filter (fun kv => negb (is_undefined (snd kv)))
              (map (fun kv => (fst kv, strip_undefined (snd kv))) o))
  | _ => v
  end.

(** No object anywhere inside [v] has a property whose value is undefined. *)
Fixpoint no_undefined_field (v : value) : bool :=
  match v with
  | VArr l => forallb no_undefined_field l
  | VObj o =>
      forallb (fun kv => negb (is_undefined (snd kv)) && no_undefined_field (snd kv)) o
  | _ => true
  end.

(** A JavaScript object has each property name once. *)
Fixpoint unique_names (l : list string) : bool :=
  match l with
  | [] => true
  | k :: r => negb (existsb (String.eqb k) r) && unique_names r
  end.

Fixpoint distinct_keys (v : value) : bool :=
  match v with
  | VArr l => forallb distinct_keys l
  | VObj o => unique_names (map fst o) && forallb (fun kv => distinct_keys (snd kv)) o
  | _ => true
  end.

(** No sequence anywhere inside [v] has undefined as an element: the
    schema's sequences hold strings and records. *)
Fixpoint dense_arrays (v : value) : bool :=
  match v with
  | VArr l => forallb (fun x => negb (is_undefined x) && dense_arrays x) l
  | VObj o => forallb (fun kv => dense_arrays (snd kv)) o
  | _ => true
  end.

(** ** JSON.stringify and JSON.parse *)

(** [JSON.stringify v] as the data it writes down; [None] where it yields
    undefined.  Inside an array undefined is written as null; a property
    whose value is undefined is left out. *)
Fixpoint stringify (v : value) : option json :=
  match v with
  | VUndefined => None
  | VNull => Some JNull
  | VBool b => Some (JBool b)
  | VNum n => Some (JNum n)
  | VStr s => Some (JStr s)
  | VArr l =>
      Some (JArr (map (fun x => match stringify x with
                                | Some j => j
                                | None => JNull
                                end) l))
  | VObj o =>
      Some (JObj (flat_map (fun kv => match stringify (snd kv) with
                                      | Some j => [(fst kv, j)]
                                      | None => []
                                      end) o))
  end.

Definition stringify_obj (o : obj) : jobj :=
  flat_map (fun kv => match stringify (snd kv) with
                      | Some j => [(fst kv, j)]
                      | None => []
                      end) o.

(** [JSON.parse] of such data. *)
Fixpoint parse (j : json) : value :=
  match j with
  | JNull => VNull
  | JBool b => VBool b
  | JNum n => VNum n
  | JStr s => VStr s
  | JArr l => VArr (map parse l)
  | JObj o => VObj (map (fun kv => (fst kv, parse (snd kv))) o)
  end.

Definition parse_obj (o : jobj) : obj :=
  map (fun kv => (fst kv, parse (snd kv))) o.

(** ** Firestore: what a document write accepts *)

(** "Firestore throws an error if a field is 'undefined'": the write is
    refused when undefined occurs anywhere in the data. *)
Fixpoint firestore_encode (v : value) : option json :=
  match v with
  | VUndefined => None
  | VNull => Some JNull
  | VBool b => Some (JBool b)
  | VNum n => Some (JNum n)
  | VStr s => Some (JStr s)
  | VArr l =>
      option_map JArr
        ((fix items (l : list value) : option (list json) :=
            match l with
            | [] => Some []
            | x :: r =>
                match firestore_encode x, items r with
                | Some j, Some js => Some (j :: js)
                | _, _ => None
                end
            end) l)
  | VObj o =>
      option_map JObj
        ((fix members (o : obj) : option jobj :=
            match o with
            | [] => Some []
            | kv :: r =>
                match firestore_encode (snd kv), members r with
                | Some j, Some js => Some ((fst kv, j) :: js)
                | _, _ => None
                end
            end) o)
  end.

(** A document is an object. *)
Definition to_document (v : value) : option jobj :=
  match firestore_encode v with
  | Some (JObj d) => Some d
  | _ => None
  end.

(** ** The world the adapters run in *)

Record error := mkError { code : option string; message : string }.

Record world := mkWorld {
  db : bool;                              (* the Firestore handle exists *)
  currentUser : option string;            (* auth.currentUser, by uid *)
  demo_auth_active : option string;       (* localStorage 'demo_auth_active' *)
  localStorage : gmap string (list jobj); (* the JSON slots *)
  firestore : gmap (string * string) (gmap string jobj);
                                          (* (uid, collection) to documents *)
  console : list (string * error);        (* console.error *)
}.

(** What the platform decides during one call of an adapter. *)
Record env := mkEnv {
  randomUUID : string;              (* crypto.randomUUID() *)
  Date_now : Z;                     (* Date.now() *)
  autoId : string;                  (* the key addDoc assigns *)
  net : option error;               (* the Firestore write throws this *)
  getDocs : string -> Z -> error + list (string * jobj);
      (* the answer to the query on a collection, ordered by timestamp
         descending and capped: it throws, or gives (id, data) pairs *)
}.

Inductive outcome (A : Type) : Type :=
| Ret (a : A)
| Throw (e : error).
Arguments Ret {A} a.
Arguments Throw {A} e.

Definition M (A : Type) : Type := world -> outcome A * world.

#[global] Instance M_ret : MRet M := fun A a w => (Ret a, w).
#[global] Instance M_bind : MBind M := fun A B f m w =>
  match m w with
  | (Ret a, w') => f a w'
  | (Throw e, w') => (Throw e, w')
  end.

Definition throw {A} (e : error) : M A := fun w => (Throw e, w).

(** [try { body } catch (err) { handler err }] *)
Definition try_catch {A} (body : M A) (handler : error -> M A) : M A :=
  fun w =>
    match body w with
    | (Ret a, w') => (Ret a, w')
    | (Throw e, w') => handler e w'
    end.

Definition console_error (line : string) (err : error) : M unit :=
  fun w => (Ret tt,
            mkWorld (db w) (currentUser w) (demo_auth_active w)
              (localStorage w) (firestore w) (console w ++ [(line, err)])).

Definition getItem (key : string) : M (option (list jobj)) :=
  fun w => (Ret (localStorage w !! key), w).

Definition setItem (key : string) (items : list jobj) : M unit :=
  fun w => (Ret tt,
            mkWorld (db w) (currentUser w) (demo_auth_active w)
              (<[key := items]> (localStorage w)) (firestore w) (console w)).

Definition documents (w : world) (uid col : string) : gmap string jobj :=
  default ∅ (firestore w !! (uid, col)).

Definition put_document (uid col key : string) (d : jobj) : M unit :=
  fun w => (Ret tt,
            mkWorld (db w) (currentUser w) (demo_auth_active w)
              (localStorage w)
              (<[(uid, col) := <[key := d]> (documents w uid col)]> (firestore w))
              (console w)).

Definition invalid_argument : error :=
  mkError (Some "invalid-argument") "Unsupported field value".

(** [setDoc(doc(db, 'users', uid, col, id), data)] *)
Definition setDoc (e : env) (uid col : string) (id data : value) : M unit :=
  match net e with
  | Some err => throw err
  | None =>
      match id, to_document data with
      | VStr key, Some d => put_document uid col key d
      | _, _ => throw invalid_argument
      end
  end.

(** [addDoc(collection(db, 'users', uid, col), data)] *)
Definition addDoc (e : env) (uid col : string) (data : value) : M unit :=
  match net e with
  | Some err => throw err
  | None =>
      match to_document data with
      | Some d => put_document uid col (autoId e) d
      | None => throw invalid_argument
      end
  end.

(** ** history.ts *)

Definition ANALYSIS_KEY : string := "dealflow_history".
Definition CHAT_KEY : string := "dealflow_chats".
Definition TOOLS_KEY : string := "dealflow_tools".

(** [db && auth?.currentUser && !localStorage.getItem('demo_auth_active')] *)
Definition isRealBackendAvailable (w : world) : bool :=
  db w && bool_decide (is_Some (currentUser w)) &&
  negb (match demo_auth_active w with
        | Some s => negb (String.eqb s "")
        | None => false
        end).

(** [v.k] on a value that is an object. *)
Definition prop (v : value) (k : string) : value :=
  match v with
  | VObj o => get_prop o k
  | _ => VUndefined
  end.

Definition saveToDatabase (e : env) (collectionName : string) (data : obj)
  : M unit :=
  fun w =>
    match isRealBackendAvailable w, currentUser w with
    | true, Some uid =>
        try_catch
          (let cleanData := sanitizeForFirestore (VObj data) in
           if truthy (prop cleanData "id")
           then setDoc e uid collectionName (prop cleanData "id") cleanData
           else addDoc e uid collectionName cleanData)
          (fun err =>
             console_error ("Firestore save error (" ++ collectionName ++ "):") err)
          w
    | _, _ => (Ret tt, w)
    end.

(** [{ id: doc.id, ...doc.data() }] *)
Definition doc_record (d : string * jobj) : obj :=
  fold_left (fun acc kv => set_prop acc (fst kv) (snd kv))
    (parse_obj (snd d)) [("id", VStr (fst d))].

Definition getFromDatabase (e : env) (collectionName : string) (limitCount : Z)
  : M (list obj) :=
  fun w =>
    match isRealBackendAvailable w, currentUser w with
    | true, Some uid =>
        try_catch
          (match getDocs e collectionName limitCount with
           | inl err => throw err
           | inr docs => mret (map doc_record docs)
           end)
          (fun err =>
             (if negb (bool_decide (code err = Some "failed-precondition"))
              then console_error ("Firestore fetch error (" ++ collectionName ++ "):") err
              else mret tt) ;; mret [])
          w
    | _, _ => (Ret [], w)
    end.

(** [stored ? JSON.parse(stored) : []] *)
Definition parse_slot (stored : option (list jobj)) : list obj :=
  match stored with
  | Some l => map parse_obj l
  | None => []
  end.

Definition getHistory (e : env) : M (list obj) :=
  dbData ← getFromDatabase e "analyses" 20;
  if 0 <? Z.of_nat (length dbData) then mret dbData
  else stored ← getItem ANALYSIS_KEY; mret (parse_slot stored).

(** [{ ...result, id: result.id || crypto.randomUUID(),
       timestamp: result.timestamp || Date.now() }] *)
Definition newEntry (e : env) (result : obj) : obj :=
  set_prop
    (set_prop result "id" (js_or (get_prop result "id") (VStr (randomUUID e))))
    "timestamp" (js_or (get_prop result "timestamp") (VNum (Date_now e))).

Definition saveToHistory (e : env) (result : obj) : M unit :=
  let entry := newEntry e result in
  saveToDatabase e "analyses" entry ;;
  stored ← getItem ANALYSIS_KEY;
  let currentLocal := parse_slot stored in
  let updated := take 10 (entry :: currentLocal) in
  setItem ANALYSIS_KEY (map stringify_obj updated).

Definition getChatHistory (e : env) : M (list obj) :=
  dbData ← getFromDatabase e "chats" 20;
  if 0 <? Z.of_nat (length dbData) then mret dbData
  else stored ← getItem CHAT_KEY; mret (parse_slot stored).

Definition saveChatSession (e : env) (session : obj) : M unit :=
  saveToDatabase e "chats" session ;;
  stored ← getItem CHAT_KEY;
  let currentLocal := parse_slot stored in
  let existingIndex :=
    findIndex (fun s => strict_eq (get_prop s "id") (get_prop session "id"))
      currentLocal in
  let updated :=
    if 0 <=? existingIndex
    then <[Z.to_nat existingIndex := session]> currentLocal
    else take 5 (session :: currentLocal) in
  setItem CHAT_KEY (map stringify_obj updated).

Definition getGenerationHistory (e : env) : M (list obj) :=
  dbData ← getFromDatabase e "generations" 20;
  if 0 <? Z.of_nat (length dbData) then mret dbData
  else stored ← getItem TOOLS_KEY; mret (parse_slot stored).

Definition saveGeneration (e : env) (gen : obj) : M unit :=
  saveToDatabase e "generations" gen ;;
  stored ← getItem TOOLS_KEY;
  let currentLocal := parse_slot stored in
  let updated := take 10 (gen :: currentLocal) in
  setItem TOOLS_KEY (map stringify_obj updated).

(** ** gemini.ts *)

(** [s.trim()].  A character stands for a code unit below 256; the white
    space among those is TAB, LF, VT, FF, CR, SP and NBSP. *)
Definition is_whitespace (c : ascii) : bool :=
  let n := N_of_ascii c in
  ((9 <=? n) && (n <=? 13) || (n =? 32) || (n =? 160))%N.

Fixpoint trimStart (l : list ascii) : list ascii :=
  match l with
  | [] => []
  | c :: r => if is_whitespace c then trimStart r else l
  end.

Definition trim (s : string) : string :=
  string_of_list_ascii
    (rev (trimStart (rev (trimStart (list_ascii_of_string s))))).

(** One part of a turn of the chat history:
    [{ text?: string; inlineData?: any }]. *)
Record part := mkPart { text : option string; inlineData : option value }.

(** [{ role: string; parts: part[] }] *)
Record turn := mkTurn { role : string; parts : list part }.

(** [(p.text && p.text.trim().length > 0) || p.inlineData] *)
Definition has_text (p : part) : bool :=
  match text p with
  | Some s => negb (String.eqb s "") && (0 <? Z.of_nat (String.length (trim s)))
  | None => false
  end.

Definition has_image (p : part) : bool :=
  match inlineData p with
  | Some v => truthy v
  | None => false
  end.

Definition keep_part (p : part) : bool := has_text p || has_image p.

(** [history.map(item => ({ role, parts: item.parts.filter(...) }))
           .filter(item => item.parts.length > 0)] *)
Definition sanitize_history (history : list turn) : list turn :=
  List.filter (fun item => 0 <? Z.of_nat (length (parts item)))
    (map (fun item => mkTurn (role item) (List.filter keep_part (parts item)))
       history).

(** [while (validHistory.length > 0 && validHistory[0].role !== 'user')
       validHistory.shift()] *)
Fixpoint remove_leading (validHistory : list turn) : list turn :=
  match validHistory with
  | [] => []
  | t :: r =>
      if negb (String.eqb (role t) "user") then remove_leading r
      else validHistory
  end.

Definition validHistory (history : list turn) : list turn :=
  remove_leading (sanitize_history history).

(** What [sendChatMessage] hands to the chat API. *)
Record chat_request := mkChatRequest {
  chat_model : string;
  chat_history : list turn;
  thinkingBudget : option Z;
  chat_message : list part;
}.

(** [{ inlineData: { data: image.data, mimeType: image.mimeType } }] *)
Definition image_part (image : string * string) : part :=
  mkPart None
    (Some (VObj [("data", VStr (fst image)); ("mimeType", VStr (snd image))])).

Definition currentParts (message : string) (image : option (string * string))
  : list part :=
  (if negb (String.eqb (trim message) "")
   then [mkPart (Some message) None]
   else match image with
        | Some _ => [mkPart (Some "Analyze this image.") None]
        | None => []
        end)
  ++ match image with
     | Some img => [image_part img]
     | None => []
     end.

Definition sendChatMessage_request (history : list turn) (message : string)
    (image : option (string * string)) (useThinking : bool) : chat_request :=
  mkChatRequest "gemini-2.5-flash" (validHistory history)
    (if useThinking then Some 16000 else None)
    (currentParts message image).

(** [chat] is what [ai.chats.create(...).sendMessage(...)] does with the
    request: it throws, or it answers with [response.text]. *)
Definition sendChatMessage (chat : chat_request -> error + option string)
    (history : list turn) (message : string)
    (image : option (string * string)) (useThinking : bool)
  : M (option string) :=
  match chat (sendChatMessage_request history message image useThinking) with
  | inl err => throw err
  | inr text => mret text
  end.

(** The response of [ai.models.generateContent].  The fields the code
    reads are optional, as the SDK declares them: [candidates],
    [groundingMetadata], [groundingChunks], [web], [inlineData], [data],
    [mimeType], and also [content] of a candidate and [parts] of a content,
    which an answer that was blocked does not carry. *)
Record web_source := mkWeb { title : option string; uri : option string }.
Record chunk := mkChunk { web : option web_source }.
Record grounding := mkGrounding { groundingChunks : option (list chunk) }.
Record inline := mkInline { data : option string; mimeType : option string }.
Record response_part := mkResponsePart { part_inlineData : option inline }.
Record content := mkContent {
  content_parts : option (list response_part);   (* content.parts *)
}.
Record candidate := mkCandidate {
  candidate_content : option content;            (* candidate.content *)
  groundingMetadata : option grounding;
}.
Record response := mkResponse {
  response_text : option string;            (* response.text *)
  candidates : option (list candidate);
}.

Definition no_response : error := mkError None "No response from Gemini".

(** [c.web?.uri], a string when present. *)
Definition web_uri (c : chunk) : option string :=
  match web c with
  | Some w => uri w
  | None => None
  end.

Definition has_uri (c : chunk) : bool :=
  match web_uri c with
  | Some u => negb (String.eqb u "")
  | None => false
  end.

Definition opt_str (s : option string) : value :=
  match s with
  | Some x => VStr x
  | None => VUndefined
  end.

(** [{ title: c.web.title, uri: c.web.uri }] *)
Definition search_link (c : chunk) : value :=
  match web c with
  | Some w => VObj [("title", opt_str (title w)); ("uri", opt_str (uri w))]
  | None => VUndefined
  end.

(** [response.candidates?.[0]?.groundingMetadata?.groundingChunks] *)
Definition response_chunks (r : response) : option (list chunk) :=
  match candidates r with
  | Some (c :: _) =>
      match groundingMetadata c with
      | Some g => groundingChunks g
      | None => None
      end
  | _ => None
  end.

(** The loop over [response.candidates[0].content.parts]. *)
Fixpoint first_image (ps : list response_part) : option string :=
  match ps with
  | [] => None
  | p :: r =>
      match part_inlineData p with
      | Some d =>
          match data d with
          | Some bytes =>
              if negb (String.eqb bytes "")
              then Some ("data:" ++
                         match mimeType d with
                         | Some m => if String.eqb m "" then "image/png" else m
                         | None => "image/png"
                         end ++ ";base64," ++ bytes)
              else first_image r
          | None => first_image r
          end
      | None => first_image r
      end
  end.

Section Gemini.
  (** [JSON.parse(text) as AnalysisResult]: the object the text denotes, or
      the error [JSON.parse] throws.  The response schema asks for an
      object. *)
  Variable JSON_parse : string -> error + jobj.

  (** [api] is what the call [ai.models.generateContent] does: it throws
      or it answers. *)
Definition analyzeProductImage (api : error + response) : M obj :=
    try_catch
      (match api with
       | inl err => throw err
       | inr response =>
           match response_text response with
           | None => throw no_response
           | Some text =>
               if String.eqb text "" then throw no_response
               else
                 match JSON_parse text with
                 | inl err => throw err
                 | inr parsed =>
                     let result := parse_obj parsed in
                     match response_chunks response with
                     | Some chunks =>
                         mret (set_prop result "searchLinks"
                                 (VArr (map search_link
                                          (List.filter has_uri chunks))))
                     | None => mret result
                     end
                 end
           end
       end)
      (fun error => console_error "Gemini Analysis Error:" error ;; throw error).
End Gemini.

(** The TypeError of reading [parts] of a [content] that is undefined, and
    of iterating over [parts] that is undefined.  A TypeError has no
    [code]; the text of its message is the engine's. *)
Definition content_undefined : error :=
  mkError None "TypeError: cannot read properties of undefined (reading 'parts')".
Definition parts_not_iterable : error :=
  mkError None "TypeError: undefined is not iterable".

(** [candidate.content.parts], read without a test. *)
Definition read_parts (c : candidate) : error + list response_part :=
  match candidate_content c with
  | None => inl content_undefined
  | Some ct =>
      match content_parts ct with
      | None => inl parts_not_iterable
      | Some ps => inr ps
      end
  end.

Definition generateCustomImage (api : error + response) : M (option string) :=
  try_catch
    (match api with
     | inl err => throw err
     | inr response =>
         match candidates response with
         | Some (c :: _) =>
             match read_parts c with
             | inl type_error => throw type_error
             | inr ps => mret (first_image ps)
             end
         | _ => mret None
         end
     end)
    (fun error => console_error "Image Gen Error:" error ;; throw error).

(** * The vocabulary of the statements *)

(** The text has a character that is not white space. *)
Definition non_whitespace (s : string) : bool :=
  existsb (fun c => negb (is_whitespace c)) (list_ascii_of_string s).

(** The part carries inline image data. *)
Definition carries_image (p : response_part) : bool :=
  match part_inlineData p with
  | Some d =>
      match data d with
      | Some bytes => negb (String.eqb bytes "")
      | None => false
      end
  | None => false
  end.

(** The parts a candidate has: none when it has no content or no parts. *)
Definition parts_of (c : candidate) : list response_part :=
  match candidate_content c with
  | Some ct => default [] (content_parts ct)
  | None => []
  end.

(** No part of any candidate carries inline image data. *)
Definition no_image (r : response) : bool :=
  match candidates r with
  | Some cs =>
      forallb (fun c => forallb (fun p => negb (carries_image p)) (parts_of c)) cs
  | None => true
  end.

(** A candidate made of its parts, and an answer that was blocked: one
    candidate, without content. *)
Definition with_parts (ps : list response_part) : candidate :=
  mkCandidate (Some (mkContent (Some ps))) None.
Definition blocked : response := mkResponse None (Some [mkCandidate None None]).

Definition mime_or_png (d : inline) : string :=
  match mimeType d with
  | Some "" | None => "image/png"
  | Some m => m
  end.

(** [{ title, uri }] of a citation. *)
Definition link_of (c : chunk) : value :=
  VObj [("title", opt_str (match web c with Some s => title s | None => None end));
        ("uri", opt_str (web_uri c))].

Definition logged (w : world) (line : string) (err : error) : world :=
  mkWorld (db w) (currentUser w) (demo_auth_active w) (localStorage w)
    (firestore w) (console w ++ [(line, err)]).

(** The [reduce] of [sanitizeForFirestore], one level. *)
Definition sanitize_fields (o acc : obj) : obj :=
  fold_left
    (fun acc kv =>
       if is_undefined (snd kv) then acc
       else set_prop acc (fst kv) (sanitizeForFirestore (snd kv)))
    o acc.

Definition strip_fields (o : obj) : obj :=
  List.filter (fun kv => negb (is_undefined (snd kv)))
    (map (fun kv => (fst kv, strip_undefined (snd kv))) o).

(** The local collection under a key: the stored list, empty when the slot
    has never been written. *)
Definition slot (w : world) (key : string) : list jobj :=
  default [] (localStorage w !! key).

(** The mirror into the local fallback: read the slot, change the list,
    write it back. *)
Definition mirror (key : string) (f : list obj -> list obj) : M unit :=
  stored ← getItem key;
  setItem key (map stringify_obj (f (parse_slot stored))).

(** Where [saveChatSession] finds the session among the stored ones. *)
Definition session_index (session : obj) (stored : list jobj) : Z :=
  findIndex (fun s => strict_eq (get_prop s "id") (get_prop session "id"))
    (map parse_obj stored).

(** A run of saves, each with what the platform decided for it. *)
Definition save_all (save : env -> obj -> M unit) (calls : list (env * obj))
    (w : world) : world :=
  fold_left (fun w c => snd (save (fst c) (snd c) w)) calls w.

Definition with_net (e : env) (n : option error) : env :=
  mkEnv (randomUUID e) (Date_now e) (autoId e) n (getDocs e).

Definition save_error_line (col : string) : string :=
  "Firestore save error (" ++ col ++ "):".

(** The stored session has the id of [session]. *)
Definition same_id (session : obj) (s : jobj) : bool :=
  strict_eq (get_prop (parse_obj s) "id") (get_prop session "id").

(** The three loaders have one shape: the query on the collection [name],
    then the local slot [key]. *)
Definition load (name key : string) (e : env) : M (list obj) :=
  dbData ← getFromDatabase e name 20;
  if 0 <? Z.of_nat (length dbData) then mret dbData
  else stored ← getItem key; mret (parse_slot stored).

Definition fetch_error_line (col : string) : string :=
  "Firestore fetch error (" ++ col ++ "):".

(** A cloud document as a record, field by field: [id] comes first and
    holds the id field of the document, or the key of the document when
    the document has no such field; the other fields follow as the
    document has them. *)
Definition cloud_record (d : string * jobj) : obj :=
  ("id", if has_key (snd d) "id" then get_prop (parse_obj (snd d)) "id"
         else VStr (fst d))
  :: List.filter (fun kv => negb (String.eqb (fst kv) "id")) (parse_obj (snd d)).

(** A stored document names each of its fields once. *)
Definition well_formed_doc (d : string * jobj) : bool :=
  unique_names (map fst (snd d)).

(** The rule of loading, for one loader, the collection [name] and the
    local slot [key]: the cloud result when there is one, the local
    collection in every other case, never an exception. *)
Definition prefers_cloud (loader : env -> M (list obj)) (name key : string)
  : Prop :=
  forall (e : env) (w : world),
    let fallback := map parse_obj (slot w key) in
    (forall d docs,
       isRealBackendAvailable w = true ->
       getDocs e name 20 = inr (d :: docs) ->
       loader e w = (Ret (map doc_record (d :: docs)), w) /\
       (forallb well_formed_doc (d :: docs) = true ->
        loader e w = (Ret (map cloud_record (d :: docs)), w))) /\
    (isRealBackendAvailable w = true -> getDocs e name 20 = inr [] ->
     loader e w = (Ret fallback, w)) /\
    (isRealBackendAvailable w = false -> loader e w = (Ret fallback, w)) /\
    (forall err,
       isRealBackendAvailable w = true -> getDocs e name 20 = inl err ->
       loader e w
       = (Ret fallback,
          if bool_decide (code err = Some "failed-precondition") then w
          else logged w (fetch_error_line name) err)) /\
    (localStorage w !! key = None -> fallback = []) /\
    (exists records, fst (loader e w) = Ret records).

(** Where the local chat list holds the session after [saveChatSession]. *)
Definition session_position (session : obj) (stored : list jobj) : nat :=
  if 0 <=? session_index session stored
  then Z.to_nat (session_index session stored)
  else 0%nat.

Definition with_documents (w : world) (uid col : string)
    (docs : gmap string jobj) : world :=
  mkWorld (db w) (currentUser w) (demo_auth_active w) (localStorage w)
    (<[(uid, col) := docs]> (firestore w)) (console w).

(** The local chat list after [saveChatSession], as a function of the list
    before: [p] recognises the id, [x] is the session as stored. *)
Definition chat_update (p : jobj -> bool) (x : jobj) (l : list jobj)
  : list jobj :=
  if 0 <=? findIndex p l
  then <[Z.to_nat (findIndex p l) := x]> l
  else take 5 (x :: l).

(** * Inputs to run the adapters on *)

Definition user_says (s : string) : turn := mkTurn "user" [mkPart (Some s) None].
Definition model_says (s : string) : turn := mkTurn "model" [mkPart (Some s) None].

Definition offline : world := mkWorld false None None ∅ ∅ [].

(** A reader and a response to try the adapter on; the text stands for the
    JSON text of an object with productName Phone and valueScore 45. *)
Definition phone_text : string := "PHONE_JSON".
Definition phone : jobj := [("productName", JStr "Phone"); ("valueScore", JNum 45)].
Definition read_phone (text : string) : error + jobj :=
  if String.eqb text phone_text then inr phone
  else inl (mkError None "SyntaxError").

Definition cited (chunks : list chunk) : response :=
  mkResponse (Some phone_text)
    (Some [mkCandidate (Some (mkContent (Some [])))
             (Some (mkGrounding (Some chunks)))]).

Definition shop : chunk :=
  mkChunk (Some (mkWeb (Some "Shop") (Some "https://shop.example/phone"))).

Definition quiet : env := mkEnv "uuid-0" 1000 "auto-0" None (fun _ _ => inr []).

Definition numbered (n : Z) : obj :=
  [("id", VStr "r"); ("timestamp", VNum n); ("productName", VStr "Phone")].

Definition jnumbered (n : Z) : jobj :=
  [("id", JStr "r"); ("timestamp", JNum n); ("productName", JStr "Phone")].

Definition chat (id last : string) : obj :=
  [("id", VStr id); ("lastMessage", VStr last)].
Definition jchat (id last : string) : jobj :=
  [("id", JStr id); ("lastMessage", JStr last)].

(** A local store that holds six chat sessions. *)
Definition six_chats : world :=
  mkWorld false None None
    {[ CHAT_KEY := [jchat "S0" "a"; jchat "S1" "b"; jchat "S2" "c";
                    jchat "S3" "d"; jchat "S4" "e"; jchat "S5" "f"] ]}
    ∅ [].

(** The local store after S1 and then S0 were saved into an empty one. *)
Definition two_chats : world :=
  snd (saveChatSession quiet (chat "S0" "a")
         (snd (saveChatSession quiet (chat "S1" "b") offline))).

(** A cloud that answers two documents, the second without an id field,
    and a write that Firestore refuses. *)
Definition cloud_docs : list (string * jobj) :=
  [("k1", jnumbered 2);
   ("k2", [("timestamp", JNum 1); ("productName", JStr "Case")])].
Definition answering : env :=
  mkEnv "uuid-0" 1000 "auto-0" None (fun _ _ => inr cloud_docs).
Definition refused : error := mkError (Some "permission-denied") "refused".

(** A record with absent optional fields written as undefined. *)
Definition analysis : obj :=
  [("id", VStr "a1"); ("timestamp", VNum 1700000000000);
   ("productName", VStr "Phone"); ("rating", VUndefined);
   ("keyFeatures", VArr [VStr "OLED"; VStr "5G"]);
   ("searchLinks",
     VArr [VObj [("title", VUndefined); ("uri", VStr "https://shop.example")]])].

(** Cloud mode active: a store, a signed-in user, no demo flag. *)
Definition online : world := mkWorld true (Some "u1") None ∅ ∅ [].

Definition generation (id prompt : string) : obj :=
  [("id", VStr id); ("prompt", VStr prompt)].
Definition jgeneration (id prompt : string) : jobj :=
  [("id", JStr id); ("prompt", JStr prompt)].

(** * More of the code *)

(** ** history.ts: clearing *)

(** [localStorage.removeItem(key)] *)
Definition removeItem (key : string) : M unit :=
  fun w => (Ret tt,
            mkWorld (db w) (currentUser w) (demo_auth_active w)
              (delete key (localStorage w)) (firestore w) (console w)).

Definition clearLocalHistory : M unit :=
  removeItem ANALYSIS_KEY ;; removeItem CHAT_KEY ;; removeItem TOOLS_KEY.

(** What Firestore decides while one user's data is cleared. *)
Record clear_env := mkClearEnv {
  list_fault : string -> option error;
      (* [getDocs] on the collection throws this *)
  delete_fault : string -> string -> option error;
      (* [deleteDoc] of (collection, document id) rejects with this *)
}.

(** [snapshot.docs.map(d => deleteDoc(...))] starts every deletion; the
    ones that are not refused take effect. *)
Definition delete_all (ce : clear_env) (col : string)
    (docs : gmap string jobj) : gmap string jobj :=
  foldr (fun kv acc =>
           match delete_fault ce col (fst kv) with
           | Some _ => acc
           | None => delete (fst kv) acc
           end)
    docs (map_to_list docs).

(** [await Promise.all(deletePromises)] rejects when a deletion does; the
    rejection taken is that of the first refused document of the
    snapshot. *)
Definition first_rejection (ce : clear_env) (col : string)
    (docs : gmap string jobj) : option error :=
  head (omap (fun kv => delete_fault ce col (fst kv)) (map_to_list docs)).

Definition clear_error_line (col : string) : string :=
  "Error clearing collection " ++ col ++ ":".

(** The body of the loop of [clearAllUserData] for one collection. *)
Definition clearCollection (ce : clear_env) (uid colName : string) : M unit :=
  try_catch
    (match list_fault ce colName with
     | Some err => throw err
     | None =>
         fun w =>
           let docs := documents w uid colName in
           (match first_rejection ce colName docs with
            | Some err => Throw err
            | None => Ret tt
            end,
            with_documents w uid colName (delete_all ce colName docs))
     end)
    (fun err => console_error (clear_error_line colName) err).

Definition clearAllUserData (ce : clear_env) : M unit :=
  clearLocalHistory ;;
  ((fun w =>
      match isRealBackendAvailable w, currentUser w with
      | true, Some uid =>
          (clearCollection ce uid "analyses" ;;
           clearCollection ce uid "chats" ;;
           clearCollection ce uid "generations") w
      | _, _ => (Ret tt, w)
      end) : M unit).

(** ** gemini.ts: describeImageForGeneration *)

Definition describeImageForGeneration (api : error + response) : M string :=
  try_catch
    (match api with
     | inl err => throw err
     | inr response =>
         mret (match response_text response with
               | Some text => text
               | None => ""
               end)
     end)
    (fun e => console_error "Failed to describe reference image" e ;; mret "").

(** ** firebase.ts *)

(** [localStorage.getItem('demo_auth_active') === 'true'] *)
Definition isDemoActive (w : world) : bool :=
  match demo_auth_active w with
  | Some s => String.eqb s "true"
  | None => false
  end.

(** [name.split(' ')] *)
Fixpoint split_spaces (name : string) : list string :=
  match name with
  | EmptyString => [EmptyString]
  | String c rest =>
      if Ascii.eqb c " "%char then EmptyString :: split_spaces rest
      else match split_spaces rest with
           | word :: more => String c word :: more
           | [] => [String c EmptyString]
           end
  end.

(** [words.map(word => word[0]).join('')]: a word without a first
    character gives undefined, which [join] writes as nothing. *)
Fixpoint first_letters (words : list string) : string :=
  match words with
  | [] => EmptyString
  | EmptyString :: more => first_letters more
  | String c _ :: more => String c (first_letters more)
  end.

Section Initials.
  (** [String.prototype.toUpperCase], the platform's. *)
  Variable toUpperCase : string -> string.

Definition getInitials (name : option string) : string :=
  match name with
  | None => "U"
  | Some n =>
      if String.eqb n "" then "U"
      else substring 0 2 (toUpperCase (first_letters (split_spaces n)))
  end.
End Initials.

(** ** UserProfile.tsx: the record handed to [saveToHistory] *)

(** [{ ...data, id: crypto.randomUUID(), timestamp: Date.now() }] *)
Definition finalData (uuid : string) (now : Z) (data : obj) : obj :=
  set_prop (set_prop data "id" (VStr uuid)) "timestamp" (VNum now).

(** ** Chat.tsx: what the chat page saves and sends *)

(** [m.text] of a chat message, a string. *)
Definition text_of (m : obj) : string :=
  match get_prop m "text" with
  | VStr s => s
  | _ => ""
  end.

(** [messages.find(m => m.role === 'user')] *)
Fixpoint find_user (messages : list obj) : option obj :=
  match messages with
  | [] => None
  | m :: rest =>
      if strict_eq (get_prop m "role") (VStr "user") then Some m
      else find_user rest
  end.

(** [messages.find(...)?.text.substring(0, 40) || 'New Conversation'] *)
Definition session_title (messages : list obj) : string :=
  match find_user messages with
  | Some m =>
      if String.eqb (substring 0 40 (text_of m)) "" then "New Conversation"
      else substring 0 40 (text_of m)
  | None => "New Conversation"
  end.

(** The session of the autosave effect; nothing is saved while the list
    holds the welcome message only. *)
Definition autosave_session (sessionId : string) (now : Z)
    (messages : list obj) : option obj :=
  if 1 <? Z.of_nat (length messages)
  then Some [("id", VStr sessionId);
             ("timestamp", VNum now);
             ("lastMessage",
               VStr (substring 0 100 (text_of (List.last messages []))));
             ("messages", VArr (map VObj messages));
             ("title", VStr (session_title messages))]
  else None.

(** [handleSend]: the guard, and the text of the message that is sent.
    [(!input.trim() && !attachedImage) || isLoading] returns at once. *)
Definition handleSend_proceeds (input : string) (attached : bool)
    (isLoading : bool) : bool :=
  negb ((String.eqb (trim input) "" && negb attached) || isLoading).

(** [input.trim() || (attachedImage ? "Analyze this image" : "")] *)
Definition messageText (input : string) (attached : bool) : string :=
  if negb (String.eqb (trim input) "") then trim input
  else if attached then "Analyze this image" else "".

(** ** Vocabulary of the further statements *)

(** A turn the chat API accepts: it has parts, each with text or image. *)
Definition valid_turn (t : turn) : bool :=
  match parts t with
  | [] => false
  | _ => forallb keep_part (parts t)
  end.

(** A user turn with at least one usable part. *)
Definition usable_user_turn (t : turn) : bool :=
  String.eqb (role t) "user" && existsb keep_part (parts t).

(** [link.uri] is a string that is not empty. *)
Definition has_string_uri (link : value) : bool :=
  match prop link "uri" with
  | VStr u => negb (String.eqb u "")
  | _ => false
  end.

(** The parts of the message [sendChatMessage] sends for the chat page. *)
Definition sent_parts (input : string) (image : option (string * string))
  : list part :=
  currentParts (messageText input (bool_decide (is_Some image))) image.

(** Undefined occurs somewhere in [v]: as [v] itself, as an element of a
    sequence, or as the value of a field. *)
Fixpoint has_undefined (v : value) : bool :=
  match v with
  | VUndefined => true
  | VArr l => existsb has_undefined l
  | VObj o => existsb (fun kv => has_undefined (snd kv)) o
  | _ => false
  end.

(** The id of a stored chat session, as [saveChatSession] reads it. *)
Definition id_of (s : jobj) : value := get_prop (parse_obj s) "id".

(** No two values of the list are [===]. *)
Fixpoint distinct_values (vs : list value) : bool :=
  match vs with
  | [] => true
  | v :: r => negb (existsb (fun u => strict_eq u v) r) && distinct_values r
  end.

(** No two stored sessions have the same id. *)
Definition unique_ids (l : list jobj) : bool := distinct_values (map id_of l).

(** The cloud has nothing to say for the collection: cloud mode is off, or
    the query throws, or it answers no record. *)
Definition cloud_silent (q : env) (name : string) (w : world) : bool :=
  negb (isRealBackendAvailable w) ||
  match getDocs q name 20 with
  | inr (_ :: _) => false
  | _ => true
  end.

(** An environment in which every call of Firestore throws. *)
Definition unreachable : env :=
  mkEnv "uuid-1" 2000 "auto-1" (Some (mkError (Some "unavailable") "offline"))
    (fun _ _ => inl (mkError (Some "unavailable") "offline")).

(** The world after the loop of [clearAllUserData] has run for one
    collection. *)
Definition cleared (ce : clear_env) (uid col : string) (w : world) : world :=
  match list_fault ce col with
  | Some err => logged w (clear_error_line col) err
  | None =>
      let w' := with_documents w uid col
                  (delete_all ce col (documents w uid col)) in
      match first_rejection ce col (documents w uid col) with
      | Some err => logged w' (clear_error_line col) err
      | None => w'
      end
  end.

(** Firestore refuses nothing. *)
Definition no_faults : clear_env := mkClearEnv (fun _ => None) (fun _ _ => None).

(** The three collections of a user. *)
Definition kinds : list string := ["analyses"; "chats"; "generations"].

(** A user with two analyses and a chat session in the cloud. *)
Definition stocked : world :=
  mkWorld true (Some "u1") None ∅
    (<[("u1", "analyses") :=
         <["a1" := jnumbered 1]> (<["a2" := jnumbered 2]> ∅)]>
       (<[("u1", "chats") := <["S1" := jchat "S1" "a"]> ∅]> ∅)) [].

(** The name consists of spaces only. *)
Fixpoint only_spaces (name : string) : bool :=
  match name with
  | EmptyString => true
  | String c rest => Ascii.eqb c " "%char && only_spaces rest
  end.

(** A conversation, and the sessions the chat page builds from it. *)
Definition hello : obj :=
  [("id", VStr "1"); ("role", VStr "model"); ("text", VStr "Hi!")].
Definition ask : obj :=
  [("id", VStr "2"); ("role", VStr "user"); ("text", VStr "best price?");
   ("attachment", VUndefined)].
Definition answer : obj :=
  [("id", VStr "3"); ("role", VStr "model"); ("text", VStr "199")].
Definition begun : obj :=
  default [] (autosave_session "S9" 1 [hello; ask]).
Definition grown : obj :=
  default [] (autosave_session "S9" 2 [hello; ask; answer]).

(** ** firebase.ts: identity *)

(** What the code reads of a Firebase [User]; [None] is null. *)
Record user := mkUser {
  user_uid : string;
  user_email : option string;
  user_displayName : option string;
  user_photoURL : option string;
}.

Definition MOCK_USER : user :=
  mkUser "demo-user-123" (Some "demo@example.com") (Some "Demo User") None.

(** The module state of firebase.ts around the world of the adapters. *)
Record session := mkSession {
  app : world;
  isConfigValid : bool;
  auth_ready : bool;               (* [auth] was initialised *)
  mockAuthObserver : bool;         (* a callback is registered *)
  observed : list (option user);   (* what the callback was called with *)
  reloaded : bool;                 (* [window.location.reload()] was called *)
}.

Definition with_app (s : session) (w : world) : session :=
  mkSession w (isConfigValid s) (auth_ready s) (mockAuthObserver s)
    (observed s) (reloaded s).

(** [localStorage.setItem('demo_auth_active', v)] and [removeItem]. *)
Definition set_demo_flag (flag : option string) (w : world) : world :=
  mkWorld (db w) (currentUser w) flag (localStorage w) (firestore w) (console w).

(** [callback(u)] *)
Definition call_back (u : option user) (s : session) : session :=
  mkSession (app s) (isConfigValid s) (auth_ready s) (mockAuthObserver s)
    (observed s ++ [u]) (reloaded s).

(** [if (mockAuthObserver) mockAuthObserver(u)] *)
Definition notify (u : option user) (s : session) : session :=
  if mockAuthObserver s then call_back u s else s.

Definition log_error (line : string) (err : error) (s : session) : session :=
  with_app s (logged (app s) line err).

(** What the platform and Firestore decide while a profile is written. *)
Record user_env := mkUserEnv {
  onLine : bool;                  (* navigator.onLine *)
  created_now : string;           (* new Date().toISOString(), createdAt *)
  login_now : string;             (* new Date().toISOString(), lastLogin *)
  user_fault : option error;      (* getDoc or setDoc throws this *)
}.

Definition opt_json (s : option string) : json :=
  match s with
  | Some x => JStr x
  | None => JNull
  end.

(** A field of a document written with [{ merge: true }]. *)
Fixpoint merge_field (d : jobj) (k : string) (v : json) : jobj :=
  match d with
  | [] => [(k, v)]
  | (k', v') :: r =>
      if String.eqb k' k then (k', v) :: r else (k', v') :: merge_field r k v
  end.

(** The documents [users/{uid}]: the collection "users" under no user. *)
Definition profiles (w : world) : gmap string jobj := documents w "" "users".

Section Identity.
  Variable toUpperCase : string -> string.

Definition createUserDocument (ue : user_env) (u : user) (s : session)
  : session :=
  if negb (onLine ue) then s
  else if negb (isConfigValid s) || negb (db (app s)) || isDemoActive (app s)
  then s
  else
    match user_fault ue with
    | Some error =>
        if negb (bool_decide (code error = Some "unavailable")) &&
           negb (bool_decide (code error = Some "failed-precondition"))
        then log_error "Error creating user document:" error s
        else s
    | None =>
        match profiles (app s) !! user_uid u with
        | None =>
            with_app s
              (with_documents (app s) "" "users"
                 (<[user_uid u :=
                      [("uid", JStr (user_uid u));
                       ("email", opt_json (user_email u));
                       ("displayName", opt_json (user_displayName u));
                       ("photoURL", opt_json (user_photoURL u));
                       ("initials",
                         JStr (getInitials toUpperCase (user_displayName u)));
                       ("createdAt", JStr (created_now ue));
                       ("lastLogin", JStr (login_now ue))]]>
                    (profiles (app s))))
        | Some d =>
            with_app s
              (with_documents (app s) "" "users"
                 (<[user_uid u := merge_field d "lastLogin" (JStr (login_now ue))]>
                    (profiles (app s))))
        end
    end.

(** The stand-in sign-in: set the flag, tell the observer, return the
    mock user.  The [console.log] line and the timer of the path are not
    part of the model, whose console holds what [console.error] is given. *)
Definition demo_sign_in (s : session) : outcome user * session :=
  (Ret MOCK_USER,
   notify (Some MOCK_USER) (with_app s (set_demo_flag (Some "true") (app s)))).

(** [sdk] is what [createUserWithEmailAndPassword] does. *)
Definition registerWithEmail (sdk : error + user) (ue : user_env) (s : session)
  : outcome user * session :=
  if negb (isConfigValid s) || negb (auth_ready s) || isDemoActive (app s)
  then demo_sign_in s
  else
    match sdk with
    | inr u => (Ret u, createUserDocument ue u s)
    | inl error => (Throw error, log_error "Error registering with email" error s)
    end.

(** [sdk] is what [signInWithEmailAndPassword] does. *)
Definition loginWithEmail (sdk : error + user) (ue : user_env) (s : session)
  : outcome user * session :=
  if negb (isConfigValid s) || negb (auth_ready s) || isDemoActive (app s)
  then demo_sign_in s
  else
    match sdk with
    | inr u => (Ret u, createUserDocument ue u s)
    | inl error =>
        (Throw error,
         if negb (bool_decide (code error = Some "auth/invalid-credential")) &&
            negb (bool_decide (code error = Some "auth/user-not-found")) &&
            negb (bool_decide (code error = Some "auth/wrong-password"))
         then log_error "Error logging in with email" error s
         else s)
    end.

(** [sdk] is what [signInWithPopup] does. *)
Definition signInWithGoogle (sdk : error + user) (ue : user_env) (s : session)
  : outcome user * session :=
  if isDemoActive (app s) then (Ret MOCK_USER, notify (Some MOCK_USER) s)
  else if negb (isConfigValid s) || negb (auth_ready s) then demo_sign_in s
  else
    match sdk with
    | inr u => (Ret u, createUserDocument ue u s)
    | inl error =>
        if bool_decide (code error = Some "auth/unauthorized-domain") ||
           bool_decide (code error = Some "auth/operation-not-allowed") ||
           bool_decide (code error = Some "auth/api-key-not-valid")
        then demo_sign_in s
        else (Throw error, log_error "Error signing in with Google" error s)
    end.


(** [subscribeToAuthChanges(callback)]: the callback is registered; without
    Firebase or in demo mode it is called at once. *)
Definition subscribeToAuthChanges (s : session) : session :=
  let s1 := mkSession (app s) (isConfigValid s) (auth_ready s) true
              (observed s) (reloaded s) in
  if (negb (isConfigValid s1) || negb (auth_ready s1)) || isDemoActive (app s1)
  then call_back (if isDemoActive (app s1) then Some MOCK_USER else None) s1
  else s1.
End Identity.

(** The field [k] of a stored document. *)
Fixpoint jget (d : jobj) (k : string) : option json :=
  match d with
  | [] => None
  | (k', v) :: r => if String.eqb k' k then Some v else jget r k
  end.

(** [createUserDocument] gets to write: the browser is on line, Firebase is
    configured with a store, the app is not in demo mode, and Firestore
    does not throw. *)
Definition profile_written (ue : user_env) (s : session) : bool :=
  onLine ue && isConfigValid s && db (app s) && negb (isDemoActive (app s)) &&
  negb (bool_decide (is_Some (user_fault ue))).

(** The sign-in functions take the stand-in path: Firebase is not
    configured or not initialised, or the demo flag is set. *)
Definition stands_in (s : session) : bool :=
  negb (isConfigValid s) || negb (auth_ready s) || isDemoActive (app s).

(** The codes on which [signInWithGoogle] switches to demo mode. *)
Definition falls_back (err : error) : bool :=
  bool_decide (code err = Some "auth/unauthorized-domain") ||
  bool_decide (code err = Some "auth/operation-not-allowed") ||
  bool_decide (code err = Some "auth/api-key-not-valid").

(** A configured app with nobody signed in, and a user of it. *)
Definition fresh_session : session :=
  mkSession (mkWorld true None None ∅ ∅ []) true true true [] false.
Definition ada : user :=
  mkUser "u1" (Some "ada@example.com") (Some "Ada Lovelace") None.
Definition first_visit : user_env := mkUserEnv true "t1" "t1" None.
Definition second_visit : user_env := mkUserEnv true "t2" "t2" None.
(** Upper case of the letters a to z, for trying [getInitials]. *)
Fixpoint ascii_upper (s : string) : string :=
  match s with
  | EmptyString => EmptyString
  | String c r =>
      let n := nat_of_ascii c in
      String (if ((97 <=? n) && (n <=? 122))%nat then ascii_of_nat (n - 32)
              else c) (ascii_upper r)
  end.

(** An app whose Firebase configuration is missing, observed by the page. *)
Definition unconfigured : session :=
  mkSession (mkWorld false None None ∅ ∅ []) false false true [] false.
Definition domain_refused : error :=
  mkError (Some "auth/unauthorized-domain") "unauthorized domain".
Definition popup_closed : error :=
  mkError (Some "auth/popup-closed-by-user") "popup closed".

(** * Properties *)

(** ** Chat history normalisation *)

Lemma length_string_of_list_ascii (l : list ascii) :
  String.length (string_of_list_ascii l) = length l.
Proof. induction l as [|c l IH]; simpl; [reflexivity | now rewrite IH]. Qed.

Lemma trimStart_blank (l : list ascii) :
  existsb (fun c => negb (is_whitespace c)) l = false -> trimStart l = [].
Proof.
  induction l as [|c l IH]; simpl; [reflexivity |].
  destruct (is_whitespace c); simpl; [exact IH | discriminate].
Qed.

Lemma trimStart_keeps (l : list ascii) :
  existsb (fun c => negb (is_whitespace c)) l = true ->
  existsb (fun c => negb (is_whitespace c)) (trimStart l) = true.
Proof.
  induction l as [|c l IH]; simpl; [discriminate |].
  destruct (is_whitespace c) eqn:E; simpl; [exact IH |].
  intros _. now rewrite E.
Qed.

Lemma existsb_rev {A} (p : A -> bool) (l : list A) :
  existsb p (rev l) = existsb p l.
Proof.
  induction l as [|x l IH]; simpl; [reflexivity |].
  rewrite existsb_app, IH. simpl. rewrite orb_false_r. apply orb_comm.
Qed.

Lemma trim_length_positive (s : string) :
  (0 <? Z.of_nat (String.length (trim s))) = non_whitespace s.
Proof.
  unfold trim, non_whitespace.
  rewrite length_string_of_list_ascii, length_rev.
  set (l := list_ascii_of_string s).
  destruct (existsb (fun c => negb (is_whitespace c)) l) eqn:E.
  - apply trimStart_keeps in E. rewrite <- existsb_rev in E.
    apply trimStart_keeps in E.
    destruct (trimStart (rev (trimStart l))); [discriminate | reflexivity].
  - now rewrite (trimStart_blank l E).
Qed.

Lemma has_text_non_whitespace (p : part) :
  has_text p = match text p with
               | Some s => non_whitespace s
               | None => false
               end.
Proof.
  unfold has_text. destruct (text p) as [s|]; [| reflexivity].
  rewrite trim_length_positive.
  destruct s; [reflexivity |]. reflexivity.
Qed.

Lemma remove_leading_split (l : list turn) :
  exists dropped,
    l = (dropped ++ remove_leading l)%list /\
    forallb (fun t => negb (String.eqb (role t) "user")) dropped = true.
Proof.
  induction l as [|t l [d [Hd Hall]]]; simpl.
  - exists []. split; reflexivity.
  - destruct (negb (String.eqb (role t) "user")) eqn:E.
    + exists (t :: d). simpl. rewrite E, Hall. split; [now f_equal | reflexivity].
    + exists []. split; reflexivity.
Qed.

Lemma remove_leading_head (l : list turn) :
  match remove_leading l with
  | [] => True
  | t :: _ => role t = "user"
  end.
Proof.
  induction l as [|t l IH]; simpl; [exact I |].
  destruct (String.eqb (role t) "user") eqn:E; simpl; [| exact IH].
  now apply String.eqb_eq.
Qed.

(** C3: before sending, [sendChatMessage] keeps in each turn exactly the
    parts that have non-whitespace text or image content, drops the turns
    left without parts, and drops leading turns up to the first turn whose
    role is user; nothing after that turn is touched, so consecutive turns
    of one role stay.  The history
    [model: no parts; user: hi; model: hello] is sent as
    [user: hi; model: hello]. *)
Theorem sendChatMessage_normalizes_history :
  (forall chat history message image useThinking w,
     sendChatMessage chat history message image useThinking w
     = match chat (sendChatMessage_request history message image useThinking) with
       | inl err => (Throw err, w)
       | inr answer => (Ret answer, w)
       end) /\
  (forall p,
     keep_part p =
       (match text p with Some s => non_whitespace s | None => false end
        || match inlineData p with Some v => truthy v | None => false end)) /\
  (forall history message image useThinking,
     let sent :=
       chat_history (sendChatMessage_request history message image useThinking) in
     let cleaned :=
       map (fun t => mkTurn (role t) (List.filter keep_part (parts t))) history in
     let nonempty :=
       List.filter (fun t => match parts t with [] => false | _ => true end)
         cleaned in
     exists dropped,
       nonempty = (dropped ++ sent)%list /\
       forallb (fun t => negb (String.eqb (role t) "user")) dropped = true /\
       match sent with [] => True | t :: _ => role t = "user" end) /\
  (forall message image useThinking,
     chat_history
       (sendChatMessage_request
          [mkTurn "model" []; user_says "hi"; model_says "hello"]
          message image useThinking)
     = [user_says "hi"; model_says "hello"]) /\
  (forall message image useThinking,
     chat_history
       (sendChatMessage_request
          [user_says "a"; user_says "b"; model_says "c"; model_says "d"]
          message image useThinking)
     = [user_says "a"; user_says "b"; model_says "c"; model_says "d"]).
Proof.
  split; [| split; [| split; [| split]]].
  - intros chat history message image useThinking w. unfold sendChatMessage.
    now destruct (chat _).
  - intros p. unfold keep_part, has_image. now rewrite has_text_non_whitespace.
  - intros history message image useThinking.
    unfold sendChatMessage_request, validHistory, sanitize_history.
    cbn [chat_history].
    rewrite (List.filter_ext
               (fun item => 0 <? Z.of_nat (length (parts item)))
               (fun t => match parts t with [] => false | _ => true end))
      by (intros t; destruct (parts t); reflexivity).
    set (kept := List.filter _ _).
    destruct (remove_leading_split kept) as [d [Hd Hall]].
    exists d. split; [exact Hd | split; [exact Hall |]].
    apply remove_leading_head.
  - reflexivity.
  - reflexivity.
Qed.

(** ** Objects: reading after writing *)

Lemma get_prop_set_prop_eq (o : obj) (k : string) (v : value) :
  get_prop (set_prop o k v) k = v.
Proof.
  induction o as [|[k' v'] o IH]; simpl.
  - now rewrite String.eqb_refl.
  - destruct (String.eqb k' k) eqn:E; simpl; rewrite E; [reflexivity | exact IH].
Qed.

Lemma get_prop_set_prop_ne (o : obj) (k k' : string) (v : value) :
  k <> k' -> get_prop (set_prop o k v) k' = get_prop o k'.
Proof.
  intros Hne. induction o as [|[k0 v0] o IH]; simpl.
  - destruct (String.eqb k k') eqn:E; [| reflexivity].
    apply String.eqb_eq in E. contradiction.
  - destruct (String.eqb k0 k) eqn:E; simpl.
    + apply String.eqb_eq in E. subst k0.
      destruct (String.eqb k k') eqn:E'; [| reflexivity].
      apply String.eqb_eq in E'. contradiction.
    + destruct (String.eqb k0 k'); [reflexivity | exact IH].
Qed.

Lemma has_key_set_prop_eq (o : obj) (k : string) (v : value) :
  has_key (set_prop o k v) k = true.
Proof.
  induction o as [|[k' v'] o IH]; simpl.
  - now rewrite String.eqb_refl.
  - destruct (String.eqb k' k) eqn:E; simpl; rewrite E; [reflexivity | exact IH].
Qed.

Lemma has_key_set_prop_ne (o : obj) (k k' : string) (v : value) :
  k <> k' -> has_key (set_prop o k v) k' = has_key o k'.
Proof.
  intros Hne. induction o as [|[k0 v0] o IH]; simpl.
  - destruct (String.eqb k k') eqn:E; [| reflexivity].
    apply String.eqb_eq in E. contradiction.
  - destruct (String.eqb k0 k) eqn:E; simpl.
    + reflexivity.
    + now rewrite IH.
Qed.

Lemma has_key_parse_obj (d : jobj) (k : string) :
  has_key (parse_obj d) k = has_key d k.
Proof.
  induction d as [|[k' j] d IH]; simpl; [reflexivity | now rewrite IH].
Qed.

Lemma map_fst_parse_obj (d : jobj) : map fst (parse_obj d) = map fst d.
Proof. induction d as [|[k j] d IH]; simpl; [reflexivity | now rewrite IH]. Qed.

Lemma get_prop_absent (o : obj) (k : string) :
  has_key o k = false -> get_prop o k = VUndefined.
Proof.
  induction o as [|[k' v] o IH]; simpl; [reflexivity |].
  destruct (String.eqb k' k); simpl; [discriminate | exact IH].
Qed.

(** ** Image generation *)

Lemma first_image_none (ps : list response_part) :
  forallb (fun p => negb (carries_image p)) ps = true -> first_image ps = None.
Proof.
  induction ps as [|p ps IH]; simpl; [reflexivity |].
  unfold carries_image at 1.
  destruct (part_inlineData p) as [d|]; simpl; [| exact IH].
  destruct (data d) as [bytes|]; simpl; [| exact IH].
  destruct (String.eqb bytes ""); simpl; [exact IH | discriminate].
Qed.

Lemma first_image_found (before after : list response_part)
    (p : response_part) (d : inline) (bytes : string) :
  forallb (fun q => negb (carries_image q)) before = true ->
  part_inlineData p = Some d -> data d = Some bytes -> bytes <> "" ->
  first_image (before ++ p :: after)
  = Some ("data:" ++ mime_or_png d ++ ";base64," ++ bytes).
Proof.
  intros Hb Hp Hd Hne.
  induction before as [|q before IH]; simpl.
  - rewrite Hp, Hd.
    destruct (String.eqb bytes "") eqn:E.
    + apply String.eqb_eq in E. contradiction.
    + simpl. unfold mime_or_png. destruct (mimeType d) as [m|]; [| reflexivity].
      destruct m; reflexivity.
  - simpl in Hb. apply andb_true_iff in Hb as [Hq Hb].
    unfold carries_image in Hq.
    destruct (part_inlineData q) as [dq|]; [| now apply IH].
    destruct (data dq) as [bq|]; [| now apply IH].
    destruct (String.eqb bq ""); [now apply IH | discriminate].
Qed.

(** C7, where the code misses a case: [generateCustomImage] returns null
    when the response has no candidate, and when the parts of the first
    candidate are there and none carries inline image data; when a part of
    the first candidate carries inline image data, it returns the first
    such part as a data URI with the part's mime type, or image/png when
    the part gives none.  But [content.parts] of the first candidate is
    read without a test: on a candidate without content, or whose content
    has no parts, the call throws a TypeError, which is logged and thrown
    again, although there is no image in the response. *)
Theorem generateCustomImage_null_or_data_uri (r : response) (w : world) :
  (no_image r = true ->
   match candidates r with
   | Some (c :: _) =>
       match read_parts c with
       | inr _ => generateCustomImage (inr r) w = (Ret None, w)
       | inl type_error =>
           generateCustomImage (inr r) w
           = (Throw type_error, logged w "Image Gen Error:" type_error)
       end
   | _ => generateCustomImage (inr r) w = (Ret None, w)
   end) /\
  (forall c cs before p after d bytes,
     candidates r = Some (c :: cs) ->
     read_parts c = inr (before ++ p :: after)%list ->
     forallb (fun q => negb (carries_image q)) before = true ->
     part_inlineData p = Some d -> data d = Some bytes -> bytes <> "" ->
     generateCustomImage (inr r) w
     = (Ret (Some ("data:" ++ mime_or_png d ++ ";base64," ++ bytes)), w)) /\
  (forall c cs,
     candidates r = Some (c :: cs) ->
     (candidate_content c = None ->
      generateCustomImage (inr r) w
      = (Throw content_undefined, logged w "Image Gen Error:" content_undefined)) /\
     (forall ct, candidate_content c = Some ct -> content_parts ct = None ->
      generateCustomImage (inr r) w
      = (Throw parts_not_iterable,
         logged w "Image Gen Error:" parts_not_iterable))).
Proof.
  split; [| split].
  - unfold no_image, generateCustomImage, try_catch. intros H.
    destruct (candidates r) as [[|c cs]|]; try reflexivity.
    simpl in H. apply andb_true_iff in H as [Hc _].
    unfold read_parts, parts_of in *.
    destruct (candidate_content c) as [ct|]; [| reflexivity].
    destruct (content_parts ct) as [ps|]; [| reflexivity].
    cbn. simpl in Hc. now rewrite (first_image_none _ Hc).
  - intros c cs before p after d bytes Hc Hparts Hb Hp Hd Hne.
    unfold generateCustomImage, try_catch. rewrite Hc, Hparts. cbn.
    now rewrite (first_image_found before after p d bytes Hb Hp Hd Hne).
  - intros c cs Hc. split.
    + intros Hnone. unfold generateCustomImage, try_catch, read_parts.
      now rewrite Hc, Hnone.
    + intros ct Hct Hnone. unfold generateCustomImage, try_catch, read_parts.
      now rewrite Hc, Hct, Hnone.
Qed.

Lemma generateCustomImage_null_or_data_uri_witness :
  generateCustomImage
    (inr (mkResponse None (Some [with_parts [mkResponsePart None]]))) offline
  = (Ret None, offline) /\
  generateCustomImage
    (inr (mkResponse None
            (Some [with_parts
                     [mkResponsePart None;
                      mkResponsePart (Some (mkInline (Some "iVBOR") None));
                      mkResponsePart (Some (mkInline (Some "AAAA") (Some "image/jpeg")))]])))
    offline
  = (Ret (Some "data:image/png;base64,iVBOR"), offline).
Proof.
  split.
  - exact (proj1 (generateCustomImage_null_or_data_uri
                    (mkResponse None (Some [with_parts [mkResponsePart None]]))
                    offline) eq_refl).
  - apply (proj1 (proj2 (generateCustomImage_null_or_data_uri _ offline))
             (with_parts
                [mkResponsePart None;
                 mkResponsePart (Some (mkInline (Some "iVBOR") None));
                 mkResponsePart (Some (mkInline (Some "AAAA") (Some "image/jpeg")))])
             [] [mkResponsePart None]
             (mkResponsePart (Some (mkInline (Some "iVBOR") None)))
             [mkResponsePart (Some (mkInline (Some "AAAA") (Some "image/jpeg")))]
             (mkInline (Some "iVBOR") None) "iVBOR");
      [reflexivity | reflexivity | reflexivity | reflexivity | reflexivity
      | discriminate].
Defined.

(** The claim fails on an answer that was blocked: no candidate of it
    carries an image, and the call throws instead of returning null. *)
Lemma blocked_answer_throws :
  no_image blocked = true /\
  generateCustomImage (inr blocked) offline
  = (Throw content_undefined,
     logged offline "Image Gen Error:" content_undefined) /\
  ~ (forall r w, no_image r = true ->
                 fst (generateCustomImage (inr r) w) = Ret None).
Proof.
  split; [reflexivity | split; [reflexivity |]].
  intros H. specialize (H blocked offline eq_refl). discriminate H.
Qed.

(** ** Product analysis *)

Lemma search_link_kept (chunks : list chunk) :
  map search_link (List.filter has_uri chunks)
  = map link_of (List.filter has_uri chunks).
Proof.
  induction chunks as [|c chunks IH]; simpl; [reflexivity |].
  destruct (has_uri c) eqn:E; simpl; [| exact IH].
  rewrite IH. f_equal.
  unfold has_uri, web_uri in E. unfold search_link, link_of, web_uri.
  destruct (web c); [reflexivity | discriminate].
Qed.

Lemma analyzeProductImage_success (JSON_parse : string -> error + jobj)
    (r : response) (text : string) (parsed : jobj) (w : world) :
  response_text r = Some text -> text <> "" -> JSON_parse text = inr parsed ->
  analyzeProductImage JSON_parse (inr r) w
  = (Ret (match response_chunks r with
          | Some chunks =>
              set_prop (parse_obj parsed) "searchLinks"
                (VArr (map search_link (List.filter has_uri chunks)))
          | None => parse_obj parsed
          end), w).
Proof.
  intros Ht Hne Hp. unfold analyzeProductImage, try_catch.
  rewrite Ht. destruct (String.eqb text "") eqn:E.
  { apply String.eqb_eq in E. contradiction. }
  rewrite Hp. destruct (response_chunks r); reflexivity.
Qed.

(** C6, as the code has it: given a response whose text parses as the
    requested object and which carries no list of grounding citations,
    [analyzeProductImage] returns the parsed object as it is, so
    [searchLinks] is not among its keys: neither present nor an empty list.
    When the response carries a list of grounding citations, [searchLinks]
    holds exactly the citations with a web URI, each as [{title, uri}], in
    order; that is the empty list when the list is empty or no citation
    has a web URI. *)
Theorem analyzeProductImage_searchLinks (JSON_parse : string -> error + jobj)
    (r : response) (text : string) (parsed : jobj) (w : world) :
  response_text r = Some text -> text <> "" -> JSON_parse text = inr parsed ->
  (response_chunks r = None -> has_key parsed "searchLinks" = false ->
   exists result,
     analyzeProductImage JSON_parse (inr r) w = (Ret result, w) /\
     result = parse_obj parsed /\
     has_key result "searchLinks" = false /\
     get_prop result "searchLinks" <> VArr []) /\
  (forall chunks, response_chunks r = Some chunks ->
   exists result,
     analyzeProductImage JSON_parse (inr r) w = (Ret result, w) /\
     has_key result "searchLinks" = true /\
     get_prop result "searchLinks"
     = VArr (map link_of (List.filter has_uri chunks))).
Proof.
  intros Ht Hne Hp. split.
  - intros Hc Hk. exists (parse_obj parsed).
    rewrite (analyzeProductImage_success _ _ _ _ _ Ht Hne Hp), Hc.
    rewrite has_key_parse_obj.
    split; [reflexivity | split; [reflexivity | split; [exact Hk |]]].
    rewrite get_prop_absent by now rewrite has_key_parse_obj.
    discriminate.
  - intros chunks Hc. eexists.
    rewrite (analyzeProductImage_success _ _ _ _ _ Ht Hne Hp), Hc.
    split; [reflexivity | split; [apply has_key_set_prop_eq |]].
    now rewrite get_prop_set_prop_eq, search_link_kept.
Qed.

Lemma analyzeProductImage_searchLinks_witness :
  (exists result,
     analyzeProductImage read_phone
       (inr (mkResponse (Some phone_text) None)) offline = (Ret result, offline) /\
     result = [("productName", VStr "Phone"); ("valueScore", VNum 45)] /\
     has_key result "searchLinks" = false /\
     get_prop result "searchLinks" <> VArr []) /\
  (exists result,
     analyzeProductImage read_phone
       (inr (cited [mkChunk None; shop])) offline = (Ret result, offline) /\
     has_key result "searchLinks" = true /\
     get_prop result "searchLinks"
     = VArr [VObj [("title", VStr "Shop");
                   ("uri", VStr "https://shop.example/phone")]]).
Proof.
  split.
  - apply (proj1 (analyzeProductImage_searchLinks read_phone
                    (mkResponse (Some phone_text) None) phone_text phone offline
                    eq_refl ltac:(discriminate) eq_refl));
      reflexivity.
  - apply (proj2 (analyzeProductImage_searchLinks read_phone
                    (cited [mkChunk None; shop]) phone_text phone offline
                    eq_refl ltac:(discriminate) eq_refl)
             [mkChunk None; shop]).
    reflexivity.
Defined.

(** The claim as the specification words it fails: a response that carries
    an empty list of citations carries no citation, and the result has
    [searchLinks] as a key, holding the empty list. *)
Lemma empty_citation_list_gives_empty_searchLinks :
  exists result,
    analyzeProductImage read_phone (inr (cited [])) offline
    = (Ret result, offline) /\
    has_key result "searchLinks" = true /\
    get_prop result "searchLinks" = VArr [].
Proof.
  eexists. split; [reflexivity |]. split; reflexivity.
Qed.

(** ** JSON: writing and reading back *)

Lemma stringify_parse (j : json) : stringify (parse j) = Some j.
Proof.
  induction j as [| | | |l IH|o IH] using json_nested_ind; simpl; try reflexivity.
  - f_equal. f_equal. induction IH as [|x l Hx _ IHl]; simpl; [reflexivity |].
    now rewrite Hx, IHl.
  - f_equal. f_equal. induction IH as [|[k x] o Hx _ IHo]; simpl; [reflexivity |].
    simpl in Hx. now rewrite Hx, IHo.
Qed.

Lemma stringify_parse_obj (d : jobj) : stringify_obj (parse_obj d) = d.
Proof.
  pose proof (stringify_parse (JObj d)) as H. simpl in H.
  now injection H.
Qed.

Lemma stringify_parse_slot (l : list jobj) :
  map stringify_obj (map parse_obj l) = l.
Proof.
  induction l as [|d l IH]; simpl; [reflexivity |].
  now rewrite stringify_parse_obj, IH.
Qed.

Lemma is_undefined_strip (v : value) :
  is_undefined (strip_undefined v) = is_undefined v.
Proof. destruct v; reflexivity. Qed.

Lemma stringify_undefined (v : value) :
  stringify v = None -> v = VUndefined.
Proof. destruct v; simpl; congruence. Qed.

(** Reading back what [JSON.stringify] wrote gives the value without its
    undefined fields, when no sequence holds undefined. *)
Lemma parse_stringify (v : value) :
  dense_arrays v = true ->
  match stringify v with
  | Some j => parse j = strip_undefined v
  | None => v = VUndefined
  end.
Proof.
  induction v as [| | | | |l IH|o IH] using value_nested_ind;
    simpl; try reflexivity; intros Hd.
  - f_equal. induction IH as [|x l Hx _ IHl]; simpl; [reflexivity |].
    simpl in Hd. apply andb_true_iff in Hd as [Hx' Hl].
    apply andb_true_iff in Hx' as [Hnu Hdx].
    specialize (Hx Hdx). rewrite (IHl Hl).
    destruct (stringify x) as [j|]; [now rewrite Hx |].
    subst x. discriminate.
  - f_equal. induction IH as [|[k x] o Hx _ IHo]; simpl; [reflexivity |].
    simpl in Hd, Hx. apply andb_true_iff in Hd as [Hdx Ho].
    specialize (Hx Hdx). rewrite is_undefined_strip.
    destruct (stringify x) as [j|] eqn:Es; simpl.
    + rewrite Hx, (IHo Ho).
      destruct x; try discriminate Es; reflexivity.
    + subst x. simpl. exact (IHo Ho).
Qed.

Lemma parse_stringify_obj (o : obj) :
  dense_arrays (VObj o) = true ->
  VObj (parse_obj (stringify_obj o)) = strip_undefined (VObj o).
Proof.
  intros Hd. exact (parse_stringify (VObj o) Hd).
Qed.

(** ** sanitizeForFirestore against the specification's words *)

Lemma set_prop_fresh (o : obj) (k : string) (v : value) :
  has_key o k = false -> set_prop o k v = (o ++ [(k, v)])%list.
Proof.
  induction o as [|[k' v'] o IH]; simpl; [reflexivity |].
  destruct (String.eqb k' k); simpl; [discriminate |].
  intros H. now rewrite IH.
Qed.

Lemma has_key_app {A} (o1 o2 : list (string * A)) (k : string) :
  has_key (o1 ++ o2)%list k = has_key o1 k || has_key o2 k.
Proof.
  induction o1 as [|[k' v] o1 IH]; simpl; [reflexivity |].
  now rewrite IH, orb_assoc.
Qed.

Lemma has_key_existsb {A} (o : list (string * A)) (k : string) :
  has_key o k = existsb (String.eqb k) (map fst o).
Proof.
  induction o as [|[k' v] o IH]; simpl; [reflexivity |].
  now rewrite IH, (String.eqb_sym k' k).
Qed.

Lemma sanitize_fields_strip (o : obj) :
  Forall (fun kv => sanitizeForFirestore (snd kv) = strip_undefined (snd kv)) o ->
  forall acc,
    unique_names (map fst o) = true ->
    forallb (fun k => negb (has_key acc k)) (map fst o) = true ->
    sanitize_fields o acc = (acc ++ strip_fields o)%list.
Proof.
  unfold sanitize_fields, strip_fields.
  induction 1 as [|[k x] o Hx _ IHo]; intros acc Hu Hfresh; simpl.
  - now rewrite app_nil_r.
  - simpl in Hx, Hu, Hfresh.
    apply andb_true_iff in Hu as [Hk Hu].
    apply andb_true_iff in Hfresh as [Hkacc Hfresh].
    rewrite is_undefined_strip.
    destruct (is_undefined x) eqn:E; simpl.
    + now apply IHo.
    + rewrite set_prop_fresh by now apply negb_true_iff.
      rewrite IHo; [now rewrite Hx, <- app_assoc | exact Hu |].
      apply forallb_forall. intros k' Hin.
      rewrite has_key_app. simpl. rewrite orb_false_r.
      rewrite forallb_forall in Hfresh. rewrite negb_orb, (Hfresh k' Hin). simpl.
      destruct (String.eqb k k') eqn:Ekk; [| reflexivity].
      apply String.eqb_eq in Ekk. subst k'.
      apply negb_true_iff in Hk.
      assert (existsb (String.eqb k) (map fst o) = true) as Hex; [| congruence].
      apply existsb_exists. exists k. split; [exact Hin | apply String.eqb_refl].
Qed.

Lemma sanitize_is_strip (v : value) :
  distinct_keys v = true -> sanitizeForFirestore v = strip_undefined v.
Proof.
  induction v as [| | | | |l IH|o IH] using value_nested_ind;
    simpl; try reflexivity; intros Hd.
  - f_equal. induction IH as [|x l Hx _ IHl]; simpl; [reflexivity |].
    simpl in Hd. apply andb_true_iff in Hd as [Hdx Hl].
    now rewrite (Hx Hdx), (IHl Hl).
  - f_equal. apply andb_true_iff in Hd as [Hu Hall].
    change (sanitize_fields o [] = strip_fields o).
    rewrite sanitize_fields_strip; [reflexivity | | exact Hu |].
    + rewrite forallb_forall in Hall.
      rewrite Forall_forall in IH |- *. intros kv Hin.
      apply list_elem_of_In in Hin as Hin'.
      apply (IH kv Hin). apply Hall. exact Hin'.
    + apply forallb_forall. reflexivity.
Qed.

Lemma strip_no_undefined_field (v : value) :
  no_undefined_field (strip_undefined v) = true.
Proof.
  induction v as [| | | | |l IH|o IH] using value_nested_ind;
    simpl; try reflexivity.
  - induction IH as [|x l Hx _ IHl]; simpl; [reflexivity |].
    now rewrite Hx, IHl.
  - induction IH as [|[k x] o Hx _ IHo]; simpl; [reflexivity |].
    simpl in Hx. rewrite is_undefined_strip.
    destruct (is_undefined x) eqn:E; simpl; [exact IHo |].
    now rewrite is_undefined_strip, E, Hx, IHo.
Qed.

(** ** What one save does to the world *)

Lemma parse_slot_slot (w : world) (key : string) :
  parse_slot (localStorage w !! key) = map parse_obj (slot w key).
Proof. unfold slot. destruct (localStorage w !! key); reflexivity. Qed.

(** The cloud write changes neither the mode nor the local storage, and it
    returns. *)
Lemma saveToDatabase_returns (e : env) (col : string) (data : obj) (w : world) :
  exists fs cs,
    saveToDatabase e col data w
    = (Ret tt, mkWorld (db w) (currentUser w) (demo_auth_active w)
                 (localStorage w) fs cs).
Proof.
  unfold saveToDatabase.
  destruct (isRealBackendAvailable w); [| destruct w; eauto].
  destruct w as [d [uid|] dm ls fs cs]; cbn [currentUser]; [| eauto].
  unfold try_catch, setDoc, addDoc. cbv zeta.
  set (cleanData := sanitizeForFirestore (VObj data)).
  destruct (truthy (prop cleanData "id")), (net e) as [err|];
    try (cbn; eauto; fail).
  - destruct (prop cleanData "id"), (to_document cleanData); cbn; eauto.
  - destruct (to_document cleanData); cbn; eauto.
Qed.

Lemma save_then_mirror (e : env) (col : string) (data : obj)
    (key : string) (f : list obj -> list obj) (w : world) :
  (saveToDatabase e col data ;; mirror key f) w
  = (Ret tt,
     mkWorld (db w) (currentUser w) (demo_auth_active w)
       (<[key := map stringify_obj (f (map parse_obj (slot w key)))]>
          (localStorage w))
       (firestore (snd (saveToDatabase e col data w)))
       (console (snd (saveToDatabase e col data w)))).
Proof.
  destruct (saveToDatabase_returns e col data w) as [fs [cs H]].
  unfold mbind, M_bind at 1. rewrite H.
  unfold mirror, mbind, M_bind, getItem, setItem. cbn.
  rewrite <- parse_slot_slot. reflexivity.
Qed.

Lemma saveToHistory_world (e : env) (result : obj) (w : world) :
  saveToHistory e result w
  = (Ret tt,
     mkWorld (db w) (currentUser w) (demo_auth_active w)
       (<[ANALYSIS_KEY :=
            take 10 (stringify_obj (newEntry e result) :: slot w ANALYSIS_KEY)]>
          (localStorage w))
       (firestore (snd (saveToDatabase e "analyses" (newEntry e result) w)))
       (console (snd (saveToDatabase e "analyses" (newEntry e result) w)))).
Proof.
  change (saveToHistory e result)
    with (saveToDatabase e "analyses" (newEntry e result) ;;
          mirror ANALYSIS_KEY (fun l => take 10 (newEntry e result :: l))).
  rewrite save_then_mirror.
  now rewrite <- firstn_map, map_cons, stringify_parse_slot.
Qed.

Lemma saveGeneration_world (e : env) (gen : obj) (w : world) :
  saveGeneration e gen w
  = (Ret tt,
     mkWorld (db w) (currentUser w) (demo_auth_active w)
       (<[TOOLS_KEY := take 10 (stringify_obj gen :: slot w TOOLS_KEY)]>
          (localStorage w))
       (firestore (snd (saveToDatabase e "generations" gen w)))
       (console (snd (saveToDatabase e "generations" gen w)))).
Proof.
  change (saveGeneration e gen)
    with (saveToDatabase e "generations" gen ;;
          mirror TOOLS_KEY (fun l => take 10 (gen :: l))).
  rewrite save_then_mirror.
  now rewrite <- firstn_map, map_cons, stringify_parse_slot.
Qed.

Lemma map_list_insert {A B} (f : A -> B) (l : list A) (i : nat) (x : A) :
  map f (<[i := x]> l) = <[i := f x]> (map f l).
Proof.
  revert i. induction l as [|y l IH]; intros [|i]; simpl; try reflexivity.
  now rewrite IH.
Qed.

Lemma saveChatSession_world (e : env) (session : obj) (w : world) :
  saveChatSession e session w
  = (Ret tt,
     mkWorld (db w) (currentUser w) (demo_auth_active w)
       (<[CHAT_KEY :=
            if 0 <=? session_index session (slot w CHAT_KEY)
            then <[Z.to_nat (session_index session (slot w CHAT_KEY)) :=
                     stringify_obj session]> (slot w CHAT_KEY)
            else take 5 (stringify_obj session :: slot w CHAT_KEY)]>
          (localStorage w))
       (firestore (snd (saveToDatabase e "chats" session w)))
       (console (snd (saveToDatabase e "chats" session w)))).
Proof.
  change (saveChatSession e session)
    with (saveToDatabase e "chats" session ;;
          mirror CHAT_KEY
            (fun l =>
               if 0 <=? findIndex
                          (fun s => strict_eq (get_prop s "id")
                                      (get_prop session "id")) l
               then <[Z.to_nat
                        (findIndex
                           (fun s => strict_eq (get_prop s "id")
                                       (get_prop session "id")) l) :=
                        session]> l
               else take 5 (session :: l))).
  rewrite save_then_mirror. unfold session_index.
  destruct (0 <=? _).
  - now rewrite map_list_insert, stringify_parse_slot.
  - now rewrite <- firstn_map, map_cons, stringify_parse_slot.
Qed.

Lemma slot_insert (w : world) (key : string) (l : list jobj)
    (d : bool) (u dm : option string) fs cs :
  slot (mkWorld d u dm (<[key := l]> (localStorage w)) fs cs) key = l.
Proof. unfold slot. cbn. now rewrite lookup_insert_eq. Qed.

Lemma slot_insert_ne (w : world) (key key' : string) (l : list jobj)
    (d : bool) (u dm : option string) fs cs :
  key <> key' ->
  slot (mkWorld d u dm (<[key := l]> (localStorage w)) fs cs) key'
  = slot w key'.
Proof. intros H. unfold slot. cbn. now rewrite lookup_insert_ne. Qed.

Lemma saveToHistory_slot (e : env) (result : obj) (w : world) :
  slot (snd (saveToHistory e result w)) ANALYSIS_KEY
  = take 10 (stringify_obj (newEntry e result) :: slot w ANALYSIS_KEY).
Proof. rewrite saveToHistory_world. cbn [snd]. apply slot_insert. Qed.

Lemma saveGeneration_slot (e : env) (gen : obj) (w : world) :
  slot (snd (saveGeneration e gen w)) TOOLS_KEY
  = take 10 (stringify_obj gen :: slot w TOOLS_KEY).
Proof. rewrite saveGeneration_world. cbn [snd]. apply slot_insert. Qed.

Lemma saveChatSession_slot (e : env) (session : obj) (w : world) :
  slot (snd (saveChatSession e session w)) CHAT_KEY
  = if 0 <=? session_index session (slot w CHAT_KEY)
    then <[Z.to_nat (session_index session (slot w CHAT_KEY)) :=
             stringify_obj session]> (slot w CHAT_KEY)
    else take 5 (stringify_obj session :: slot w CHAT_KEY).
Proof. rewrite saveChatSession_world. cbn [snd]. apply slot_insert. Qed.

(** ** Retention *)

Lemma take_app_take {A} (n : nat) (a b : list A) :
  take n (a ++ take n b) = take n (a ++ b).
Proof.
  rewrite !take_app, take_take. do 2 f_equal. lia.
Qed.

(** Prepending under a cap keeps the newest, newest first. *)
Lemma prepend_capped {A} (n : nat) (xs l0 : list A) :
  fold_left (fun l x => take n (x :: l)) xs (take n l0)
  = take n (rev xs ++ l0).
Proof.
  revert l0. induction xs as [|x xs IH]; intros l0; simpl; [reflexivity |].
  change (x :: take n l0) with ([x] ++ take n l0)%list.
  rewrite take_app_take, IH. now rewrite <- app_assoc.
Qed.

Lemma save_all_history (calls : list (env * obj)) (w : world) :
  slot (save_all saveToHistory calls w) ANALYSIS_KEY
  = fold_left (fun l x => take 10 (x :: l))
      (map (fun c => stringify_obj (newEntry (fst c) (snd c))) calls)
      (slot w ANALYSIS_KEY).
Proof.
  revert w. induction calls as [|[e r] calls IH]; intros w; simpl; [reflexivity |].
  unfold save_all in *. simpl. now rewrite IH, saveToHistory_slot.
Qed.

Lemma save_all_generations (calls : list (env * obj)) (w : world) :
  slot (save_all saveGeneration calls w) TOOLS_KEY
  = fold_left (fun l x => take 10 (x :: l))
      (map (fun c => stringify_obj (snd c)) calls) (slot w TOOLS_KEY).
Proof.
  revert w. induction calls as [|[e r] calls IH]; intros w; simpl; [reflexivity |].
  unfold save_all in *. simpl. now rewrite IH, saveGeneration_slot.
Qed.

Lemma save_all_chats_bounded (calls : list (env * obj)) (w : world) :
  (length (slot w CHAT_KEY) <= 5)%nat ->
  (length (slot (save_all saveChatSession calls w) CHAT_KEY) <= 5)%nat.
Proof.
  revert w. induction calls as [|[e s] calls IH]; intros w Hw; simpl; [exact Hw |].
  unfold save_all in *. simpl. apply IH.
  rewrite saveChatSession_slot.
  destruct (0 <=? _).
  - now rewrite length_insert.
  - rewrite length_take. lia.
Qed.

(** C5: starting from an empty local store, after any run of
    [saveToHistory] calls the local analyses are the entries saved, most
    recent first, cut to 10; after 11 saves they are the last 10, most
    recent first.  The local generations are capped at 10 the same way, and
    the local chat sessions never exceed 5, a session that is not yet
    stored being put first and the list cut to 5. *)
Theorem local_retention_caps (w : world) :
  localStorage w = ∅ ->
  (forall calls,
     let entries :=
       map (fun c => stringify_obj (newEntry (fst c) (snd c))) calls in
     slot (save_all saveToHistory calls w) ANALYSIS_KEY = take 10 (rev entries) /\
     (length (slot (save_all saveToHistory calls w) ANALYSIS_KEY) <= 10)%nat) /\
  (forall first rest,
     length rest = 10%nat ->
     slot (save_all saveToHistory (first :: rest) w) ANALYSIS_KEY
     = rev (map (fun c => stringify_obj (newEntry (fst c) (snd c))) rest)) /\
  (forall calls,
     slot (save_all saveGeneration calls w) TOOLS_KEY
     = take 10 (rev (map (fun c => stringify_obj (snd c)) calls))) /\
  (forall calls,
     (length (slot (save_all saveChatSession calls w) CHAT_KEY) <= 5)%nat) /\
  (forall calls e session,
     let before := save_all saveChatSession calls w in
     session_index session (slot before CHAT_KEY) < 0 ->
     slot (snd (saveChatSession e session before)) CHAT_KEY
     = take 5 (stringify_obj session :: slot before CHAT_KEY)).
Proof.
  intros Hempty.
  assert (Hslot : forall key, slot w key = []).
  { intros key. unfold slot. now rewrite Hempty, lookup_empty. }
  assert (Hhist : forall calls,
             slot (save_all saveToHistory calls w) ANALYSIS_KEY
             = take 10 (rev (map (fun c => stringify_obj (newEntry (fst c) (snd c)))
                               calls))).
  { intros calls. rewrite save_all_history, Hslot.
    change (@nil jobj) with (take 10 (@nil jobj)).
    now rewrite prepend_capped, app_nil_r. }
  split; [| split; [| split; [| split]]].
  - intros calls entries. split; [apply Hhist |].
    rewrite Hhist, length_take. lia.
  - intros first rest Hlen. rewrite Hhist. simpl map. simpl rev.
    rewrite take_app_length'; [reflexivity |].
    now rewrite length_rev, length_map.
  - intros calls. rewrite save_all_generations, Hslot.
    change (@nil jobj) with (take 10 (@nil jobj)).
    now rewrite prepend_capped, app_nil_r.
  - intros calls. apply save_all_chats_bounded. rewrite Hslot. simpl. lia.
  - intros calls e session before Hidx. rewrite saveChatSession_slot.
    destruct (0 <=? _) eqn:E; [| reflexivity].
    apply Z.leb_le in E. lia.
Qed.

Lemma local_retention_caps_witness :
  slot (save_all saveToHistory
          (map (fun n => (quiet, numbered n)) [1; 2; 3; 4; 5; 6; 7; 8; 9; 10; 11])
          offline) ANALYSIS_KEY
  = map jnumbered [11; 10; 9; 8; 7; 6; 5; 4; 3; 2].
Proof.
  exact (proj1 (proj2 (local_retention_caps offline eq_refl))
           (quiet, numbered 1)
           (map (fun n => (quiet, numbered n)) [2; 3; 4; 5; 6; 7; 8; 9; 10; 11])
           eq_refl).
Defined.

(** ** Identifier and timestamp *)

(** C8, as the code has it: the identifier and the timestamp are assigned
    by [saveToHistory], not by [analyzeProductImage].  The entry that
    [saveToHistory] builds carries the record's id when that is truthy and
    a newly generated identifier otherwise, and the record's timestamp
    when that is truthy and the current time otherwise: an id or a
    timestamp that is missing, undefined or null is replaced, and so are
    the empty string as id and 0 as timestamp, although the caller
    supplied them.  That entry is what [saveToHistory] writes to the cloud
    and to the local list.  [analyzeProductImage] returns the parsed
    object with no key added but [searchLinks], and it fails with an error
    when the model returns no text. *)
Theorem id_and_timestamp_assigned_by_saveToHistory :
  (forall e result,
     get_prop (newEntry e result) "id"
     = (if truthy (get_prop result "id") then get_prop result "id"
        else VStr (randomUUID e)) /\
     get_prop (newEntry e result) "timestamp"
     = (if truthy (get_prop result "timestamp") then get_prop result "timestamp"
        else VNum (Date_now e))) /\
  (forall e result,
     (In (get_prop result "id") [VUndefined; VNull; VStr ""] ->
      get_prop (newEntry e result) "id" = VStr (randomUUID e)) /\
     (In (get_prop result "timestamp") [VUndefined; VNull; VNum 0] ->
      get_prop (newEntry e result) "timestamp" = VNum (Date_now e)) /\
     (forall id, id <> "" -> get_prop result "id" = VStr id ->
                 get_prop (newEntry e result) "id" = VStr id) /\
     (forall t, t <> 0 -> get_prop result "timestamp" = VNum t ->
                get_prop (newEntry e result) "timestamp" = VNum t)) /\
  (forall e result w,
     slot (snd (saveToHistory e result w)) ANALYSIS_KEY
     = take 10 (stringify_obj (newEntry e result) :: slot w ANALYSIS_KEY) /\
     firestore (snd (saveToHistory e result w))
     = firestore (snd (saveToDatabase e "analyses" (newEntry e result) w))) /\
  (forall JSON_parse r w,
     match response_text r with
     | None | Some "" =>
         analyzeProductImage JSON_parse (inr r) w
         = (Throw no_response, logged w "Gemini Analysis Error:" no_response)
     | Some text =>
         match JSON_parse text with
         | inl err =>
             analyzeProductImage JSON_parse (inr r) w
             = (Throw err, logged w "Gemini Analysis Error:" err)
         | inr parsed =>
             exists result,
               analyzeProductImage JSON_parse (inr r) w = (Ret result, w) /\
               has_key result "id" = has_key parsed "id" /\
               has_key result "timestamp" = has_key parsed "timestamp"
         end
     end).
Proof.
  assert (Hentry : forall e result,
             get_prop (newEntry e result) "id"
             = (if truthy (get_prop result "id") then get_prop result "id"
                else VStr (randomUUID e)) /\
             get_prop (newEntry e result) "timestamp"
             = (if truthy (get_prop result "timestamp")
                then get_prop result "timestamp" else VNum (Date_now e))).
  { intros e result. unfold newEntry, js_or. split.
    - rewrite get_prop_set_prop_ne by discriminate.
      now rewrite get_prop_set_prop_eq.
    - now rewrite get_prop_set_prop_eq. }
  split; [exact Hentry | split; [| split]].
  - intros e result. destruct (Hentry e result) as [Hid Hts].
    rewrite Hid, Hts. repeat split.
    + intros [H | [H | [H | []]]]; now rewrite <- H.
    + intros [H | [H | [H | []]]]; now rewrite <- H.
    + intros id Hne ->. simpl.
      destruct (String.eqb id "") eqn:E; [| reflexivity].
      apply String.eqb_eq in E. contradiction.
    + intros t Hne ->. simpl.
      destruct (t =? 0) eqn:E; [| reflexivity].
      apply Z.eqb_eq in E. contradiction.
  - intros e result w. split; [apply saveToHistory_slot |].
    now rewrite saveToHistory_world.
  - intros JSON_parse r w.
    destruct (response_text r) as [text|] eqn:Ht.
    + destruct text as [|c text'] eqn:Etext.
      * unfold analyzeProductImage, try_catch. now rewrite Ht.
      * rewrite <- Etext in *.
        assert (Hne : text <> "") by (rewrite Etext; discriminate).
        destruct (JSON_parse text) as [err|parsed] eqn:Hp.
        -- unfold analyzeProductImage, try_catch. rewrite Ht.
           destruct (String.eqb text "") eqn:E.
           { apply String.eqb_eq in E. contradiction. }
           now rewrite Hp.
        -- eexists. rewrite (analyzeProductImage_success _ _ _ _ _ Ht Hne Hp).
           split; [reflexivity |].
           destruct (response_chunks r).
           ++ rewrite !has_key_set_prop_ne by discriminate.
              now rewrite !has_key_parse_obj.
           ++ now rewrite !has_key_parse_obj.
    + unfold analyzeProductImage, try_catch. now rewrite Ht.
Qed.

(** The claim as the specification words it fails: on a successful call the
    result of [analyzeProductImage] need not carry an id. *)
Lemma analyzeProductImage_assigns_no_id :
  ~ (forall JSON_parse api w result w',
       analyzeProductImage JSON_parse api w = (Ret result, w') ->
       has_key result "id" = true).
Proof.
  intros H.
  specialize (H read_phone (inr (mkResponse (Some phone_text) None)) offline
                [("productName", VStr "Phone"); ("valueScore", VNum 45)]
                offline eq_refl).
  discriminate H.
Qed.

(** ** Cloud write failures *)

Lemma isRealBackendAvailable_user (w : world) :
  isRealBackendAvailable w = true -> exists uid, currentUser w = Some uid.
Proof.
  unfold isRealBackendAvailable. intros H.
  apply andb_true_iff in H as [H _]. apply andb_true_iff in H as [_ H].
  apply bool_decide_eq_true in H. destruct H as [uid H]. eauto.
Qed.

Lemma saveToDatabase_failing (e : env) (err : error) (col : string)
    (data : obj) (w : world) :
  saveToDatabase (with_net e (Some err)) col data w
  = (Ret tt,
     if isRealBackendAvailable w then logged w (save_error_line col) err else w).
Proof.
  unfold saveToDatabase.
  destruct (isRealBackendAvailable w) eqn:Hc; [| reflexivity].
  destruct (isRealBackendAvailable_user w Hc) as [uid Hu]. rewrite Hu.
  unfold try_catch, setDoc, addDoc. cbn [net with_net].
  destruct (truthy _); reflexivity.
Qed.

(** C9: a save never raises on a cloud write failure.  When the cloud
    write throws, each of the three saves returns normally, the error is
    logged to the console inside the adapter and the cloud store is left
    as it was, and the mirror into the local collection is still written:
    the entry goes to the head of the analyses, the generation to the head
    of the generations, both cut to 10, and the chat session to the place
    of the stored session with its id or to the head, cut to 5.  The local
    storage is then exactly what it is when the cloud write succeeds. *)
Theorem save_survives_cloud_failure (e : env) (err : error) (record : obj)
    (w : world) :
  let failing := with_net e (Some err) in
  let working := with_net e None in
  let caught col w' :=
    firestore w' = firestore w /\
    console w' = (if isRealBackendAvailable w
                  then console w ++ [(save_error_line col, err)]
                  else console w)%list in
  (fst (saveToHistory failing record w) = Ret tt /\
   slot (snd (saveToHistory failing record w)) ANALYSIS_KEY
   = take 10 (stringify_obj (newEntry e record) :: slot w ANALYSIS_KEY) /\
   localStorage (snd (saveToHistory failing record w))
   = localStorage (snd (saveToHistory working record w)) /\
   caught "analyses" (snd (saveToHistory failing record w))) /\
  (fst (saveChatSession failing record w) = Ret tt /\
   slot (snd (saveChatSession failing record w)) CHAT_KEY
   = (if 0 <=? session_index record (slot w CHAT_KEY)
      then <[Z.to_nat (session_index record (slot w CHAT_KEY)) :=
               stringify_obj record]> (slot w CHAT_KEY)
      else take 5 (stringify_obj record :: slot w CHAT_KEY)) /\
   localStorage (snd (saveChatSession failing record w))
   = localStorage (snd (saveChatSession working record w)) /\
   caught "chats" (snd (saveChatSession failing record w))) /\
  (fst (saveGeneration failing record w) = Ret tt /\
   slot (snd (saveGeneration failing record w)) TOOLS_KEY
   = take 10 (stringify_obj record :: slot w TOOLS_KEY) /\
   localStorage (snd (saveGeneration failing record w))
   = localStorage (snd (saveGeneration working record w)) /\
   caught "generations" (snd (saveGeneration failing record w))).
Proof.
  cbv zeta.
  split; [| split].
  - split; [now rewrite saveToHistory_world |].
    split; [exact (saveToHistory_slot (with_net e (Some err)) record w) |].
    rewrite !saveToHistory_world. cbn [fst snd localStorage firestore console].
    split; [reflexivity |].
    change (newEntry (with_net e (Some err)) record) with (newEntry e record).
    rewrite saveToDatabase_failing. cbn [snd].
    destruct (isRealBackendAvailable w); split; reflexivity.
  - split; [now rewrite saveChatSession_world |].
    split; [apply saveChatSession_slot |].
    rewrite !saveChatSession_world. cbn [fst snd localStorage firestore console].
    split; [reflexivity |].
    rewrite saveToDatabase_failing. cbn [snd].
    destruct (isRealBackendAvailable w); split; reflexivity.
  - split; [now rewrite saveGeneration_world |].
    split; [apply saveGeneration_slot |].
    rewrite !saveGeneration_world. cbn [fst snd localStorage firestore console].
    split; [reflexivity |].
    rewrite saveToDatabase_failing. cbn [snd].
    destruct (isRealBackendAvailable w); split; reflexivity.
Qed.

Lemma save_survives_cloud_failure_witness :
  let w' := snd (saveGeneration (with_net quiet (Some refused))
                   (generation "g1" "a cat") online) in
  fst (saveGeneration (with_net quiet (Some refused))
         (generation "g1" "a cat") online) = Ret tt /\
  slot w' TOOLS_KEY = [jgeneration "g1" "a cat"] /\
  firestore w' = firestore online /\
  console w' = [(save_error_line "generations", refused)].
Proof.
  pose proof (proj2 (proj2 (save_survives_cloud_failure quiet refused
                              (generation "g1" "a cat") online))) as H.
  cbv zeta in H. destruct H as [Hret [Hslot [_ [Hstore Hlog]]]].
  exact (conj Hret (conj Hslot (conj Hstore Hlog))).
Defined.

(** ** Chat sessions: update in place *)

Lemma findIndex_map {A B} (f : A -> B) (p : B -> bool) (l : list A) :
  findIndex p (map f l) = findIndex (fun x => p (f x)) l.
Proof.
  induction l as [|x l IH]; simpl; [reflexivity | now rewrite IH].
Qed.

Lemma findIndex_absent {A} (p : A -> bool) (l : list A) :
  existsb p l = false -> findIndex p l = -1.
Proof.
  induction l as [|x l IH]; simpl; [reflexivity |].
  destruct (p x); simpl; [discriminate |].
  intros H. now rewrite (IH H).
Qed.

Lemma findIndex_first {A} (p : A -> bool) (l : list A) :
  existsb p l = true ->
  exists (i : nat) (x : A),
    findIndex p l = Z.of_nat i /\
    l !! i = Some x /\ p x = true /\
    forall (j : nat) (y : A), (j < i)%nat -> l !! j = Some y -> p y = false.
Proof.
  induction l as [|x l IH]; simpl; [discriminate |].
  destruct (p x) eqn:Hx; simpl.
  - intros _. exists 0%nat, x. repeat split; try assumption. intros j y Hj. lia.
  - intros H. destruct (IH H) as [i [y [Hi [Hy [Hp Hfirst]]]]].
    exists (S i), y. rewrite Hi.
    destruct (Z.of_nat i <? 0) eqn:E; [apply Z.ltb_lt in E; lia |].
    repeat split; try assumption; [lia |].
    intros [|j] z Hj Hz; simpl in Hz.
    + now injection Hz as <-.
    + apply (Hfirst j z); [lia | exact Hz].
Qed.

(** C10: when the id of the session already occurs in the local chat list,
    [saveChatSession] leaves the list at its length, puts the session at
    the first position that has this id, and leaves every other entry as
    it was; the cap of 5 is not applied again. *)
Theorem saveChatSession_updates_in_place (e : env) (session : obj) (w : world) :
  existsb (same_id session) (slot w CHAT_KEY) = true ->
  let before := slot w CHAT_KEY in
  let after := slot (snd (saveChatSession e session w)) CHAT_KEY in
  exists (i : nat) (old : jobj),
    before !! i = Some old /\ same_id session old = true /\
    (forall (j : nat) (s : jobj),
       (j < i)%nat -> before !! j = Some s -> same_id session s = false) /\
    length after = length before /\
    after !! i = Some (stringify_obj session) /\
    (forall j : nat, j <> i -> after !! j = before !! j).
Proof.
  intros Hex. cbv zeta.
  destruct (findIndex_first _ _ Hex) as [i [old [Hi [Hold [Hsame Hfirst]]]]].
  exists i, old.
  assert (Hafter : slot (snd (saveChatSession e session w)) CHAT_KEY
                   = <[i := stringify_obj session]> (slot w CHAT_KEY)).
  { rewrite saveChatSession_slot.
    unfold session_index. rewrite findIndex_map.
    change (fun x => strict_eq (get_prop (parse_obj x) "id")
                       (get_prop session "id")) with (same_id session).
    rewrite Hi.
    destruct (0 <=? Z.of_nat i) eqn:E; [| apply Z.leb_gt in E; lia].
    now rewrite Nat2Z.id. }
  repeat split; try assumption.
  - rewrite Hafter. apply length_insert.
  - rewrite Hafter. apply list_lookup_insert_eq.
    now apply lookup_lt_Some with old.
  - intros j Hj. rewrite Hafter. apply list_lookup_insert_ne. congruence.
Qed.

Lemma saveChatSession_updates_in_place_witness :
  let before := slot six_chats CHAT_KEY in
  let after :=
    slot (snd (saveChatSession quiet (chat "S1" "later") six_chats)) CHAT_KEY in
  exists (i : nat) (old : jobj),
    before !! i = Some old /\ same_id (chat "S1" "later") old = true /\
    (forall (j : nat) (s : jobj),
       (j < i)%nat -> before !! j = Some s ->
       same_id (chat "S1" "later") s = false) /\
    length after = length before /\
    after !! i = Some (stringify_obj (chat "S1" "later")) /\
    (forall j : nat, j <> i -> after !! j = before !! j).
Proof.
  exact (saveChatSession_updates_in_place quiet (chat "S1" "later") six_chats
           eq_refl).
Defined.

(** ** Loading: the cloud first, the local fallback otherwise *)

Lemma getFromDatabase_offline (e : env) (col : string) (n : Z) (w : world) :
  isRealBackendAvailable w = false -> getFromDatabase e col n w = (Ret [], w).
Proof. intros H. unfold getFromDatabase. now rewrite H. Qed.

Lemma getFromDatabase_docs (e : env) (col : string) (n : Z) (w : world)
    (docs : list (string * jobj)) :
  isRealBackendAvailable w = true -> getDocs e col n = inr docs ->
  getFromDatabase e col n w = (Ret (map doc_record docs), w).
Proof.
  intros Hc Hq. unfold getFromDatabase. rewrite Hc.
  destruct (isRealBackendAvailable_user w Hc) as [uid ->].
  unfold try_catch. now rewrite Hq.
Qed.

Lemma getFromDatabase_throws (e : env) (col : string) (n : Z) (w : world)
    (err : error) :
  isRealBackendAvailable w = true -> getDocs e col n = inl err ->
  getFromDatabase e col n w
  = (Ret [],
     if bool_decide (code err = Some "failed-precondition") then w
     else logged w (fetch_error_line col) err).
Proof.
  intros Hc Hq. unfold getFromDatabase. rewrite Hc.
  destruct (isRealBackendAvailable_user w Hc) as [uid ->].
  unfold try_catch. rewrite Hq. cbn.
  destruct (bool_decide (code err = Some "failed-precondition")); reflexivity.
Qed.

Lemma load_local (name key : string) (e : env) (w w' : world) :
  getFromDatabase e name 20 w = (Ret [], w') ->
  localStorage w' = localStorage w ->
  load name key e w = (Ret (map parse_obj (slot w key)), w').
Proof.
  intros H Hl. unfold load, mbind, M_bind at 1. rewrite H.
  change (0 <? Z.of_nat (length (@nil obj))) with false. cbv iota.
  unfold getItem, mbind, M_bind, mret, M_ret.
  now rewrite Hl, parse_slot_slot.
Qed.

Lemma spread_over_id (l acc : obj) (v : value) :
  unique_names (map fst l) = true ->
  (forall k, has_key l k = true -> has_key acc k = false) ->
  fold_left (fun acc kv => set_prop acc (fst kv) (snd kv)) l (("id", v) :: acc)
  = ("id", if has_key l "id" then get_prop l "id" else v)
    :: (acc ++ List.filter (fun kv => negb (String.eqb (fst kv) "id")) l)%list.
Proof.
  revert acc v. induction l as [|[k x] l IH]; intros acc v Hu Hacc.
  - simpl. now rewrite app_nil_r.
  - simpl in Hu. apply andb_true_iff in Hu as [Hk Hu].
    apply negb_true_iff in Hk. rewrite <- has_key_existsb in Hk.
    cbn [fold_left fst snd set_prop].
    destruct (String.eqb k "id") eqn:E.
    + apply String.eqb_eq in E. subst k.
      cbn [String.eqb Ascii.eqb Bool.eqb andb].
      rewrite IH; [| exact Hu |].
      * cbn [has_key get_prop List.filter fst negb]. rewrite String.eqb_refl.
        cbn [orb negb]. now rewrite Hk.
      * intros k Hin. apply Hacc. cbn [has_key].
        now rewrite Hin, orb_true_r.
    + rewrite (String.eqb_sym k "id") in E.
      replace (String.eqb "id" k) with false.
      assert (Hfresh : has_key acc k = false).
      { apply Hacc. cbn [has_key]. now rewrite String.eqb_refl. }
      rewrite (set_prop_fresh acc k x Hfresh).
      rewrite IH; [| exact Hu |].
      * cbn [has_key get_prop List.filter fst negb].
        rewrite (String.eqb_sym k "id"), E. cbn [orb negb].
        now rewrite <- app_assoc.
      * intros k' Hin. rewrite has_key_app.
        rewrite (Hacc k') by (cbn [has_key]; now rewrite Hin, orb_true_r).
        cbn [has_key orb].
        destruct (String.eqb k k') eqn:E'; [| reflexivity].
        apply String.eqb_eq in E'. subst k'. congruence.
Qed.

Lemma doc_record_cloud_record (d : string * jobj) :
  well_formed_doc d = true -> doc_record d = cloud_record d.
Proof.
  unfold well_formed_doc, doc_record, cloud_record. intros Hu.
  rewrite (spread_over_id (parse_obj (snd d)) [] (VStr (fst d))).
  - now rewrite has_key_parse_obj.
  - now rewrite map_fst_parse_obj.
  - reflexivity.
Qed.

Lemma map_doc_record_cloud_record (docs : list (string * jobj)) :
  forallb well_formed_doc docs = true ->
  map doc_record docs = map cloud_record docs.
Proof.
  induction docs as [|d docs IH]; simpl; [reflexivity |].
  intros H. apply andb_true_iff in H as [Hd Hdocs].
  now rewrite (doc_record_cloud_record d Hd), (IH Hdocs).
Qed.

Lemma load_prefers_cloud (name key : string) :
  prefers_cloud (load name key) name key.
Proof.
  intros e w fallback. unfold fallback.
  assert (Hdocs : forall d docs,
             isRealBackendAvailable w = true ->
             getDocs e name 20 = inr (d :: docs) ->
             load name key e w = (Ret (map doc_record (d :: docs)), w)).
  { intros d docs Hc Hq. unfold load, mbind, M_bind at 1.
    now rewrite (getFromDatabase_docs e name 20 w _ Hc Hq). }
  assert (Hempty : isRealBackendAvailable w = true -> getDocs e name 20 = inr [] ->
                   load name key e w = (Ret (map parse_obj (slot w key)), w)).
  { intros Hc Hq. apply load_local; [| reflexivity].
    now rewrite (getFromDatabase_docs e name 20 w _ Hc Hq). }
  assert (Hoff : isRealBackendAvailable w = false ->
                 load name key e w = (Ret (map parse_obj (slot w key)), w)).
  { intros Hc. apply load_local; [| reflexivity].
    now apply getFromDatabase_offline. }
  assert (Herr : forall err,
             isRealBackendAvailable w = true -> getDocs e name 20 = inl err ->
             load name key e w
             = (Ret (map parse_obj (slot w key)),
                if bool_decide (code err = Some "failed-precondition") then w
                else logged w (fetch_error_line name) err)).
  { intros err Hc Hq. apply load_local.
    - now apply getFromDatabase_throws.
    - destruct (bool_decide _); reflexivity. }
  repeat split; try assumption.
  - now apply Hdocs.
  - intros Hwf. rewrite <- (map_doc_record_cloud_record _ Hwf). now apply Hdocs.
  - intros Hnone. unfold slot. now rewrite Hnone.
  - destruct (isRealBackendAvailable w) eqn:Hc.
    + destruct (getDocs e name 20) as [err|[|d docs]] eqn:Hq.
      * rewrite (Herr err eq_refl eq_refl). eauto.
      * rewrite (Hempty eq_refl eq_refl). eauto.
      * rewrite (Hdocs d docs eq_refl eq_refl). eauto.
    + rewrite (Hoff eq_refl). eauto.
Qed.

(** C2: each of the three loaders returns the cloud result when cloud mode
    is active and the query yields at least one record: one record for
    each document, in the order of the answer, with the fields of the
    document and its id; in every other case, also when the cloud read
    throws whatever error, it returns the local collection of its kind
    (the empty list when nothing is stored), and it never throws. *)
Theorem loaders_prefer_cloud :
  prefers_cloud getHistory "analyses" ANALYSIS_KEY /\
  prefers_cloud getChatHistory "chats" CHAT_KEY /\
  prefers_cloud getGenerationHistory "generations" TOOLS_KEY.
Proof.
  split; [| split].
  - exact (load_prefers_cloud "analyses" ANALYSIS_KEY).
  - exact (load_prefers_cloud "chats" CHAT_KEY).
  - exact (load_prefers_cloud "generations" TOOLS_KEY).
Qed.

Lemma loaders_prefer_cloud_witness :
  getHistory answering online
  = (Ret [[("id", VStr "r"); ("timestamp", VNum 2); ("productName", VStr "Phone")];
          [("id", VStr "k2"); ("timestamp", VNum 1); ("productName", VStr "Case")]],
     online).
Proof.
  exact (proj2 (proj1 (proj1 loaders_prefer_cloud answering online)
                  ("k1", jnumbered 2)
                  [("k2", [("timestamp", JNum 1); ("productName", JStr "Case")])]
                  eq_refl eq_refl)
           eq_refl).
Defined.

(** ** Saving and loading back, cloud mode inactive *)

Lemma dense_get_prop (o : obj) (k : string) :
  dense_arrays (VObj o) = true -> dense_arrays (get_prop o k) = true.
Proof.
  simpl. induction o as [|[k' v] o IH]; simpl; [reflexivity |].
  intros H. apply andb_true_iff in H as [Hv Ho].
  destruct (String.eqb k' k); [exact Hv | exact (IH Ho)].
Qed.

Lemma dense_set_prop (o : obj) (k : string) (v : value) :
  dense_arrays (VObj o) = true -> dense_arrays v = true ->
  dense_arrays (VObj (set_prop o k v)) = true.
Proof.
  simpl. intros Ho Hv. induction o as [|[k' v'] o IH]; simpl.
  - now rewrite Hv.
  - simpl in Ho. apply andb_true_iff in Ho as [Hv' Ho].
    destruct (String.eqb k' k); simpl.
    + now rewrite Hv, Ho.
    + now rewrite Hv', (IH Ho).
Qed.

Lemma dense_js_or (a b : value) :
  dense_arrays a = true -> dense_arrays b = true ->
  dense_arrays (js_or a b) = true.
Proof. unfold js_or. now destruct (truthy a). Qed.

Lemma dense_newEntry (e : env) (result : obj) :
  dense_arrays (VObj result) = true ->
  dense_arrays (VObj (newEntry e result)) = true.
Proof.
  intros H. unfold newEntry.
  apply dense_set_prop; [apply dense_set_prop |]; try assumption;
    apply dense_js_or; try reflexivity; now apply dense_get_prop.
Qed.

Lemma set_prop_same (o : obj) (k : string) :
  has_key o k = true -> set_prop o k (get_prop o k) = o.
Proof.
  induction o as [|[k' v] o IH]; simpl; [discriminate |].
  destruct (String.eqb k' k); simpl; [reflexivity |].
  intros H. now rewrite (IH H).
Qed.

Lemma truthy_has_key (o : obj) (k : string) :
  truthy (get_prop o k) = true -> has_key o k = true.
Proof.
  intros H. destruct (has_key o k) eqn:E; [reflexivity |].
  rewrite (get_prop_absent o k E) in H. discriminate.
Qed.

Lemma newEntry_complete (e : env) (result : obj) :
  truthy (get_prop result "id") = true ->
  truthy (get_prop result "timestamp") = true ->
  newEntry e result = result.
Proof.
  intros Hid Hts. unfold newEntry, js_or. rewrite Hid, Hts.
  rewrite (set_prop_same result "id") by now apply truthy_has_key.
  apply set_prop_same. now apply truthy_has_key.
Qed.

Lemma saveToHistory_mode (e : env) (result : obj) (w : world) :
  isRealBackendAvailable (snd (saveToHistory e result w))
  = isRealBackendAvailable w.
Proof. now rewrite saveToHistory_world. Qed.

Lemma saveGeneration_mode (e : env) (gen : obj) (w : world) :
  isRealBackendAvailable (snd (saveGeneration e gen w))
  = isRealBackendAvailable w.
Proof. now rewrite saveGeneration_world. Qed.

Lemma saveChatSession_mode (e : env) (session : obj) (w : world) :
  isRealBackendAvailable (snd (saveChatSession e session w))
  = isRealBackendAvailable w.
Proof. now rewrite saveChatSession_world. Qed.

Lemma findIndex_nonnegative {A} (p : A -> bool) (l : list A) :
  0 <= findIndex p l -> existsb p l = true.
Proof.
  intros H. destruct (existsb p l) eqn:E; [reflexivity |].
  rewrite (findIndex_absent p l E) in H. lia.
Qed.

Lemma saveChatSession_position (e : env) (session : obj) (w : world) :
  slot (snd (saveChatSession e session w)) CHAT_KEY
    !! session_position session (slot w CHAT_KEY)
  = Some (stringify_obj session).
Proof.
  rewrite saveChatSession_slot. unfold session_position.
  destruct (0 <=? session_index session (slot w CHAT_KEY)) eqn:E; [| reflexivity].
  apply Z.leb_le in E. unfold session_index in *.
  rewrite findIndex_map in *.
  destruct (findIndex_first _ _ (findIndex_nonnegative _ _ E))
    as [i [old [Hi [Hold _]]]].
  rewrite Hi, Nat2Z.id. apply list_lookup_insert_eq.
  now apply lookup_lt_Some with old.
Qed.

Lemma load_offline (name key : string) (e : env) (w : world) :
  isRealBackendAvailable w = false ->
  load name key e w = (Ret (map parse_obj (slot w key)), w).
Proof.
  intros H. apply load_local; [| reflexivity]. now apply getFromDatabase_offline.
Qed.

(** C1, as the code has it: with cloud mode inactive, a Load after a Save
    returns the saved record without its undefined fields, for a record
    whose sequences hold no undefined.  [saveToHistory] and
    [saveGeneration] put it at the head of the list; [saveChatSession] puts
    it at the head when its id is not yet stored and at the position of the
    stored session with that id otherwise.  What [saveToHistory] saves is
    the entry it builds: the record with a generated identifier in the
    place of an id that is not truthy (missing, undefined, null, the empty
    string) and the current time in the place of a timestamp that is not
    truthy (missing, undefined, null, 0), every other property kept; the
    entry is the record itself when both are truthy.  On every record
    [sanitizeForFirestore] returns the record with every undefined field
    removed, recursively, and leaves no undefined field. *)
Theorem local_save_then_load (e q : env) (record : obj) (w : world) :
  distinct_keys (VObj record) = true ->
  (isRealBackendAvailable w = false -> dense_arrays (VObj record) = true ->
   (let w1 := snd (saveToHistory e record w) in
    exists head rest,
      getHistory q w1 = (Ret (head :: rest), w1) /\
      VObj head = strip_undefined (VObj (newEntry e record))) /\
   (let w1 := snd (saveGeneration e record w) in
    exists head rest,
      getGenerationHistory q w1 = (Ret (head :: rest), w1) /\
      VObj head = strip_undefined (VObj record)) /\
   (let w1 := snd (saveChatSession e record w) in
    exists loaded found,
      getChatHistory q w1 = (Ret loaded, w1) /\
      loaded !! session_position record (slot w CHAT_KEY) = Some found /\
      VObj found = strip_undefined (VObj record))) /\
  get_prop (newEntry e record) "id"
  = (if truthy (get_prop record "id") then get_prop record "id"
     else VStr (randomUUID e)) /\
  get_prop (newEntry e record) "timestamp"
  = (if truthy (get_prop record "timestamp") then get_prop record "timestamp"
     else VNum (Date_now e)) /\
  (In (get_prop record "id") [VUndefined; VNull; VStr ""] ->
   get_prop (newEntry e record) "id" = VStr (randomUUID e)) /\
  (In (get_prop record "timestamp") [VUndefined; VNull; VNum 0] ->
   get_prop (newEntry e record) "timestamp" = VNum (Date_now e)) /\
  (forall k, k <> "id" -> k <> "timestamp" ->
             get_prop (newEntry e record) k = get_prop record k) /\
  (truthy (get_prop record "id") = true ->
   truthy (get_prop record "timestamp") = true ->
   newEntry e record = record) /\
  sanitizeForFirestore (VObj record) = strip_undefined (VObj record) /\
  no_undefined_field (sanitizeForFirestore (VObj record)) = true.
Proof.
  intros Hkeys.
  assert (Hid : get_prop (newEntry e record) "id"
                = (if truthy (get_prop record "id") then get_prop record "id"
                   else VStr (randomUUID e))).
  { unfold newEntry, js_or. rewrite get_prop_set_prop_ne by discriminate.
    now rewrite get_prop_set_prop_eq. }
  assert (Hts : get_prop (newEntry e record) "timestamp"
                = (if truthy (get_prop record "timestamp")
                   then get_prop record "timestamp" else VNum (Date_now e))).
  { unfold newEntry, js_or. now rewrite get_prop_set_prop_eq. }
  split; [| split; [exact Hid | split; [exact Hts |
            split; [| split; [| split; [| split; [| split]]]]]]].
  - intros Hoff Hdense. split; [| split]; cbv zeta.
    + change (getHistory q) with (load "analyses" ANALYSIS_KEY q).
      rewrite load_offline by now rewrite saveToHistory_mode.
      rewrite saveToHistory_slot. simpl take. rewrite map_cons.
      eexists _, _. split; [reflexivity |].
      apply parse_stringify_obj. now apply dense_newEntry.
    + change (getGenerationHistory q) with (load "generations" TOOLS_KEY q).
      rewrite load_offline by now rewrite saveGeneration_mode.
      rewrite saveGeneration_slot. simpl take. rewrite map_cons.
      eexists _, _. split; [reflexivity |].
      now apply parse_stringify_obj.
    + change (getChatHistory q) with (load "chats" CHAT_KEY q).
      rewrite load_offline by now rewrite saveChatSession_mode.
      eexists _, _. split; [reflexivity |]. split.
      * rewrite list_lookup_fmap, saveChatSession_position. reflexivity.
      * now apply parse_stringify_obj.
  - rewrite Hid. intros [H | [H | [H | []]]]; now rewrite <- H.
  - rewrite Hts. intros [H | [H | [H | []]]]; now rewrite <- H.
  - intros k Hk1 Hk2. unfold newEntry.
    now rewrite !get_prop_set_prop_ne by congruence.
  - apply newEntry_complete.
  - now apply sanitize_is_strip.
  - rewrite sanitize_is_strip by assumption. apply strip_no_undefined_field.
Qed.

Lemma local_save_then_load_witness :
  let w1 := snd (saveToHistory quiet analysis offline) in
  exists head rest,
    getHistory quiet w1 = (Ret (head :: rest), w1) /\
    VObj head = strip_undefined (VObj (newEntry quiet analysis)).
Proof.
  exact (proj1 (proj1 (local_save_then_load quiet quiet analysis offline
                         eq_refl)
                  eq_refl eq_refl)).
Defined.

(** The claim as the specification words it fails: a chat session that is
    already stored is written back where it stands, so the head of the
    loaded list is another session (S1, then S0 are saved into an empty
    store, then S1 again); a record saved without an id comes back with
    one; and undefined inside a sequence comes back as null. *)
Lemma load_head_is_not_the_saved_record :
  (let w1 := snd (saveChatSession quiet (chat "S1" "later") two_chats) in
   exists head rest,
     getChatHistory quiet w1 = (Ret (head :: rest), w1) /\
     head = chat "S0" "a" /\
     VObj head <> strip_undefined (VObj (chat "S1" "later"))) /\
  (let w1 := snd (saveToHistory quiet [("productName", VStr "Phone")] offline) in
   exists head rest,
     getHistory quiet w1 = (Ret (head :: rest), w1) /\
     head = [("productName", VStr "Phone"); ("id", VStr "uuid-0");
             ("timestamp", VNum 1000)] /\
     VObj head <> strip_undefined (VObj [("productName", VStr "Phone")])) /\
  (let sparse := [("id", VStr "a2"); ("timestamp", VNum 7);
                  ("keyFeatures", VArr [VUndefined])] in
   let w1 := snd (saveToHistory quiet sparse offline) in
   exists head rest,
     getHistory quiet w1 = (Ret (head :: rest), w1) /\
     head = [("id", VStr "a2"); ("timestamp", VNum 7);
             ("keyFeatures", VArr [VNull])] /\
     VObj head <> strip_undefined (VObj sparse)).
Proof.
  split; [| split]; cbv zeta.
  - change (getChatHistory quiet) with (load "chats" CHAT_KEY quiet).
    rewrite load_offline by reflexivity.
    rewrite saveChatSession_slot.
    eexists _, _. split; [reflexivity |]. split; [reflexivity | discriminate].
  - change (getHistory quiet) with (load "analyses" ANALYSIS_KEY quiet).
    rewrite load_offline by reflexivity.
    rewrite saveToHistory_slot.
    eexists _, _. split; [reflexivity |]. split; [reflexivity | discriminate].
  - change (getHistory quiet) with (load "analyses" ANALYSIS_KEY quiet).
    rewrite load_offline by reflexivity.
    rewrite saveToHistory_slot.
    eexists _, _. split; [reflexivity |]. split; [reflexivity | discriminate].
Qed.

(** ** Saving twice under one id *)


(** Firestore takes what is left after the undefined fields are removed,
    and stores what [JSON.stringify] would write. *)
Lemma firestore_encode_strip (v : value) :
  dense_arrays v = true ->
  firestore_encode (strip_undefined v) = stringify v.
Proof.
  induction v as [| | | | |l IH|o IH] using value_nested_ind;
    simpl; try reflexivity; intros Hd.
  - f_equal.
    induction IH as [|x l Hx _ IHl]; simpl; [reflexivity |].
    simpl in Hd. apply andb_true_iff in Hd as [Hx' Hl].
    apply andb_true_iff in Hx' as [Hnu Hdx].
    rewrite (Hx Hdx).
    destruct (stringify x) as [j|] eqn:Es.
    + specialize (IHl Hl). simpl in IHl.
      destruct ((fix items (l0 : list value) : option (list json) := _)
                  (map strip_undefined l)) as [js|];
        simpl in IHl; [| discriminate].
      now injection IHl as <-.
    + apply stringify_undefined in Es. subst x. discriminate.
  - f_equal.
    induction IH as [|[k x] o Hx _ IHo]; simpl; [reflexivity |].
    simpl in Hd, Hx. apply andb_true_iff in Hd as [Hdx Ho].
    specialize (IHo Ho). rewrite is_undefined_strip.
    destruct (is_undefined x) eqn:Eu; simpl.
    + destruct x; try discriminate. simpl. exact IHo.
    + rewrite (Hx Hdx).
      destruct (stringify x) as [j|] eqn:Es.
      * simpl in IHo.
        destruct ((fix members (o0 : obj) : option jobj := _)
                    (List.filter _ _)) as [js|];
          simpl in IHo; [| discriminate].
        now injection IHo as <-.
      * apply stringify_undefined in Es. subst x. discriminate.
Qed.

Lemma to_document_sanitized (o : obj) :
  dense_arrays (VObj o) = true -> distinct_keys (VObj o) = true ->
  to_document (sanitizeForFirestore (VObj o)) = Some (stringify_obj o).
Proof.
  intros Hd Hk. unfold to_document.
  now rewrite sanitize_is_strip, firestore_encode_strip.
Qed.



Lemma documents_with_documents (w : world) (uid col : string)
    (docs : gmap string jobj) :
  documents (with_documents w uid col docs) uid col = docs.
Proof. unfold documents, with_documents. cbn. now rewrite lookup_insert_eq. Qed.






Lemma saveChatSession_chat_update (e : env) (session : obj) (w : world) :
  slot (snd (saveChatSession e session w)) CHAT_KEY
  = chat_update (same_id session) (stringify_obj session) (slot w CHAT_KEY).
Proof.
  rewrite saveChatSession_slot. unfold chat_update, session_index.
  now rewrite findIndex_map.
Qed.

Lemma existsb_split {A} (p : A -> bool) (l : list A) :
  existsb p l = true ->
  exists a y b, l = (a ++ y :: b)%list /\ existsb p a = false /\ p y = true.
Proof.
  induction l as [|x l IH]; simpl; [discriminate |].
  destruct (p x) eqn:Hx; simpl.
  - intros _. exists [], x, l. repeat split; assumption.
  - intros H. destruct (IH H) as [a [y [b [-> [Ha Hy]]]]].
    exists (x :: a), y, b. simpl. rewrite Hx, Ha. repeat split; assumption.
Qed.

Lemma findIndex_app {A} (p : A -> bool) (a b : list A) (y : A) :
  existsb p a = false -> p y = true ->
  findIndex p (a ++ y :: b) = Z.of_nat (length a).
Proof.
  intros Ha Hy. induction a as [|x a IH]; simpl.
  - now rewrite Hy.
  - simpl in Ha. apply orb_false_iff in Ha as [Hx Ha].
    rewrite Hx, (IH Ha).
    destruct (Z.of_nat (length a) <? 0) eqn:E; [apply Z.ltb_lt in E |]; lia.
Qed.

Lemma chat_update_replaces (p : jobj -> bool) (x y : jobj) (a b : list jobj) :
  existsb p a = false -> p y = true ->
  chat_update p x (a ++ y :: b) = (a ++ x :: b)%list.
Proof.
  intros Ha Hy. unfold chat_update. rewrite (findIndex_app p a b y Ha Hy).
  destruct (0 <=? Z.of_nat (length a)) eqn:E; [| apply Z.leb_gt in E; lia].
  rewrite Nat2Z.id.
  replace (length a) with (length a + 0)%nat by lia.
  now rewrite insert_app_r.
Qed.

Lemma chat_update_prepends (p : jobj -> bool) (x : jobj) (l : list jobj) :
  existsb p l = false -> chat_update p x l = x :: take 4 l.
Proof.
  intros H. unfold chat_update. now rewrite (findIndex_absent p l H).
Qed.

Lemma filter_none {A} (p : A -> bool) (l : list A) :
  existsb p l = false -> List.filter p l = [].
Proof.
  induction l as [|x l IH]; simpl; [reflexivity |].
  destruct (p x); simpl; [discriminate | exact IH].
Qed.

Lemma existsb_take {A} (p : A -> bool) (n : nat) (l : list A) :
  existsb p l = false -> existsb p (take n l) = false.
Proof.
  revert n. induction l as [|x l IH]; intros [|n]; simpl; try reflexivity.
  intros H. apply orb_false_iff in H as [Hx Hl]. now rewrite Hx, (IH n Hl).
Qed.

Lemma filter_empty_none {A} (p : A -> bool) (l : list A) :
  List.filter p l = [] -> existsb p l = false.
Proof.
  induction l as [|x l IH]; simpl; [reflexivity |].
  destruct (p x); simpl; [discriminate | exact IH].
Qed.

(** Two updates under one id leave one entry with that id, the later. *)
Lemma chat_update_twice (p : jobj -> bool) (x1 x2 : jobj) (l : list jobj) :
  p x1 = true -> p x2 = true ->
  (length (List.filter p l) <= 1)%nat ->
  List.filter p (chat_update p x2 (chat_update p x1 l)) = [x2].
Proof.
  intros H1 H2 Hcount.
  destruct (existsb p l) eqn:E.
  - destruct (existsb_split p l E) as [a [y [b [-> [Ha Hy]]]]].
    rewrite List.filter_app in Hcount. simpl in Hcount.
    rewrite Hy, (filter_none p a Ha) in Hcount. simpl in Hcount.
    assert (Hb : List.filter p b = []).
    { destruct (List.filter p b); [reflexivity | simpl in Hcount; lia]. }
    rewrite (chat_update_replaces p x1 y a b Ha Hy).
    rewrite (chat_update_replaces p x2 x1 a b Ha H1).
    rewrite List.filter_app. simpl.
    now rewrite H2, (filter_none p a Ha), Hb.
  - rewrite (chat_update_prepends p x1 l E).
    change (x1 :: take 4 l) with ([] ++ x1 :: take 4 l)%list.
    rewrite (chat_update_replaces p x2 x1 [] (take 4 l) eq_refl H1).
    simpl. rewrite H2. f_equal.
    apply filter_none. now apply existsb_take.
Qed.

Lemma stored_id (o : obj) (k id : string) :
  get_prop o k = VStr id ->
  get_prop (parse_obj (stringify_obj o)) k = VStr id.
Proof.
  unfold parse_obj, stringify_obj.
  induction o as [|[k' x] o IH]; simpl; [discriminate |].
  destruct (String.eqb k' k) eqn:E.
  - intros ->. simpl. now rewrite E.
  - intros H. destruct (stringify x); simpl; [rewrite E |]; exact (IH H).
Qed.

Lemma same_id_stored (session : obj) (id : string) :
  get_prop session "id" = VStr id ->
  same_id session (stringify_obj session) = true.
Proof.
  intros H. unfold same_id. rewrite (stored_id session "id" id H), H.
  simpl. apply String.eqb_refl.
Qed.






(** * Further properties *)

(** ** The history that is sent *)

Lemma filter_keep_fixed (ps : list part) :
  forallb keep_part ps = true -> List.filter keep_part ps = ps.
Proof.
  induction ps as [|p ps IH]; simpl; [reflexivity |].
  intros H. apply andb_true_iff in H as [Hp Hps]. now rewrite Hp, (IH Hps).
Qed.

Lemma forallb_filter_self {A} (p : A -> bool) (l : list A) :
  forallb p (List.filter p l) = true.
Proof.
  induction l as [|x l IH]; simpl; [reflexivity |].
  destruct (p x) eqn:E; simpl; [now rewrite E |]; exact IH.
Qed.

Lemma sanitize_history_valid (history : list turn) :
  forallb valid_turn (sanitize_history history) = true.
Proof.
  unfold sanitize_history.
  induction history as [|t h IH]; simpl; [reflexivity |].
  destruct (List.filter keep_part (parts t)) as [|p ps] eqn:E; simpl; [exact IH |].
  rewrite IH, andb_true_r.
  change (forallb keep_part (p :: ps) = true).
  rewrite <- E. apply forallb_filter_self.
Qed.

Lemma sanitize_history_fixed (l : list turn) :
  forallb valid_turn l = true -> sanitize_history l = l.
Proof.
  unfold sanitize_history.
  induction l as [|[r ps] l IH]; simpl; [reflexivity |].
  intros H. apply andb_true_iff in H as [Ht Hl].
  unfold valid_turn in Ht. simpl in Ht.
  destruct ps as [|p ps]; [discriminate |].
  rewrite (filter_keep_fixed _ Ht). simpl. now rewrite (IH Hl).
Qed.

Lemma remove_leading_valid (l : list turn) :
  forallb valid_turn l = true -> forallb valid_turn (remove_leading l) = true.
Proof.
  induction l as [|t l IH]; simpl; [reflexivity |].
  intros H. destruct (negb (String.eqb (role t) "user")); [| exact H].
  apply andb_true_iff in H as [_ Hl]. exact (IH Hl).
Qed.

Lemma remove_leading_twice (l : list turn) :
  remove_leading (remove_leading l) = remove_leading l.
Proof.
  induction l as [|t l IH]; simpl; [reflexivity |].
  destruct (negb (String.eqb (role t) "user")) eqn:E; [exact IH |].
  simpl. now rewrite E.
Qed.

(** X1: normalising is idempotent: a history that [sendChatMessage] has
    normalised is sent unchanged when it is passed in again. *)
Theorem validHistory_idempotent (history : list turn) :
  validHistory (validHistory history) = validHistory history.
Proof.
  unfold validHistory.
  rewrite (sanitize_history_fixed (remove_leading (sanitize_history history))).
  - apply remove_leading_twice.
  - apply remove_leading_valid, sanitize_history_valid.
Qed.

Lemma remove_leading_empty (l : list turn) :
  match remove_leading l with [] => true | _ => false end
  = negb (existsb (fun t => String.eqb (role t) "user") l).
Proof.
  induction l as [|t l IH]; simpl; [reflexivity |].
  destruct (String.eqb (role t) "user"); simpl; [reflexivity | exact IH].
Qed.

Lemma existsb_filter_keep (ps : list part) :
  match List.filter keep_part ps with [] => false | _ => true end
  = existsb keep_part ps.
Proof.
  induction ps as [|p ps IH]; simpl; [reflexivity |].
  destruct (keep_part p); simpl; [reflexivity | exact IH].
Qed.

Lemma sanitize_history_users (history : list turn) :
  existsb (fun t => String.eqb (role t) "user") (sanitize_history history)
  = existsb usable_user_turn history.
Proof.
  unfold sanitize_history, usable_user_turn.
  induction history as [|t h IH]; simpl; [reflexivity |].
  rewrite <- (existsb_filter_keep (parts t)).
  destruct (List.filter keep_part (parts t)); simpl.
  - now rewrite andb_false_r.
  - now rewrite andb_true_r, IH.
Qed.

(** X2: every turn that is sent has at least one part and only parts with
    text or image, and something is sent exactly when some user turn of
    the history has such a part: a history of model turns only, or whose
    user turns are blank, is sent as the empty history. *)
Theorem validHistory_turns_are_valid (history : list turn) :
  forallb valid_turn (validHistory history) = true /\
  match validHistory history with [] => true | _ => false end
  = negb (existsb usable_user_turn history).
Proof.
  unfold validHistory. split.
  - apply remove_leading_valid, sanitize_history_valid.
  - now rewrite remove_leading_empty, sanitize_history_users.
Qed.

(** ** The message the chat page sends *)

Lemma existsb_trimStart (l : list ascii) :
  existsb (fun c => negb (is_whitespace c)) (trimStart l)
  = existsb (fun c => negb (is_whitespace c)) l.
Proof.
  destruct (existsb (fun c => negb (is_whitespace c)) l) eqn:E.
  - now apply trimStart_keeps.
  - now rewrite (trimStart_blank l E).
Qed.

Lemma non_whitespace_trim (s : string) :
  non_whitespace (trim s) = non_whitespace s.
Proof.
  unfold non_whitespace, trim.
  rewrite list_ascii_of_string_of_list_ascii.
  now rewrite existsb_rev, existsb_trimStart, existsb_rev, existsb_trimStart.
Qed.

Lemma trim_blank (s : string) :
  String.eqb (trim s) "" = negb (non_whitespace s).
Proof.
  rewrite <- trim_length_positive.
  destruct (trim s); reflexivity.
Qed.

(** X3: when [handleSend] goes on (the input is not blank or an image is
    attached, and no call is running), the message it sends is never
    empty: its first part is a text part, holding the trimmed input or,
    for an image with blank input, the page's own label, and the image
    follows as the only other part.  The label of [sendChatMessage] for
    an image without text is therefore never used by the page. *)
Theorem handleSend_sends_text_first (input : string)
    (image : option (string * string)) (isLoading : bool) :
  handleSend_proceeds input (bool_decide (is_Some image)) isLoading = true ->
  messageText input (bool_decide (is_Some image)) <> "" /\
  sent_parts input image
  = mkPart (Some (if non_whitespace input then trim input
                  else "Analyze this image")) None
    :: match image with
       | Some img => [image_part img]
       | None => []
       end.
Proof.
  unfold handleSend_proceeds, sent_parts, messageText, currentParts.
  rewrite !trim_blank. intros H.
  apply negb_true_iff, orb_false_iff in H as [H _].
  destruct (non_whitespace input) eqn:Hin; simpl in *.
  - split.
    + intros Heq. pose proof (trim_blank input) as Hb.
      rewrite Heq, Hin in Hb. discriminate.
    + rewrite non_whitespace_trim, Hin. simpl.
      destruct image; reflexivity.
  - destruct image as [img|]; simpl in *; [| discriminate].
    split; [discriminate | reflexivity].
Qed.

Lemma handleSend_sends_text_first_witness :
  messageText "  best price?  " false <> "" /\
  sent_parts "  best price?  " None = [mkPart (Some "best price?") None].
Proof.
  exact (handleSend_sends_text_first "  best price?  " None false eq_refl).
Defined.

(** ** Calls of the model that fail, and what is read of the answer *)

(** X4: only the first candidate of the response is looked at, whatever
    the other candidates hold: when its parts are there and none carries
    inline image data, [generateCustomImage] returns null; when it has no
    content, or its content has no parts, [generateCustomImage] throws the
    TypeError of that read, logged once, also when a later candidate
    carries an image. *)
Theorem generateCustomImage_reads_first_candidate (text : option string)
    (c : candidate) (others : list candidate) (w : world) :
  forallb (fun p => negb (carries_image p)) (parts_of c) = true ->
  generateCustomImage (inr (mkResponse text (Some (c :: others)))) w
  = match read_parts c with
    | inr _ => (Ret None, w)
    | inl type_error =>
        (Throw type_error, logged w "Image Gen Error:" type_error)
    end.
Proof.
  intros H. unfold generateCustomImage, try_catch. cbn [candidates].
  unfold read_parts, parts_of in *.
  destruct (candidate_content c) as [ct|]; [| reflexivity].
  destruct (content_parts ct) as [ps|]; [| reflexivity].
  cbn. simpl in H. now rewrite (first_image_none _ H).
Qed.

Lemma generateCustomImage_reads_first_candidate_witness :
  generateCustomImage
    (inr (mkResponse None
            (Some [with_parts [mkResponsePart None];
                   with_parts
                     [mkResponsePart (Some (mkInline (Some "iVBOR") None))]])))
    offline
  = (Ret None, offline) /\
  generateCustomImage
    (inr (mkResponse None
            (Some [mkCandidate None None;
                   with_parts
                     [mkResponsePart (Some (mkInline (Some "iVBOR") None))]])))
    offline
  = (Throw content_undefined,
     logged offline "Image Gen Error:" content_undefined).
Proof.
  split.
  - exact (generateCustomImage_reads_first_candidate None
             (with_parts [mkResponsePart None])
             [with_parts [mkResponsePart (Some (mkInline (Some "iVBOR") None))]]
             offline eq_refl).
  - exact (generateCustomImage_reads_first_candidate None
             (mkCandidate None None)
             [with_parts [mkResponsePart (Some (mkInline (Some "iVBOR") None))]]
             offline eq_refl).
Defined.

(** X5: when the call of the model throws, [analyzeProductImage] and
    [generateCustomImage] log the error once and throw the same error to
    their caller, while [describeImageForGeneration] logs it and returns
    the empty string; [describeImageForGeneration] never throws, and gives
    the empty string too when the answer has no text. *)
Theorem model_call_failures (JSON_parse : string -> error + jobj)
    (err : error) (w : world) :
  analyzeProductImage JSON_parse (inl err) w
  = (Throw err, logged w "Gemini Analysis Error:" err) /\
  generateCustomImage (inl err) w
  = (Throw err, logged w "Image Gen Error:" err) /\
  describeImageForGeneration (inl err) w
  = (Ret "", logged w "Failed to describe reference image" err) /\
  (forall api, exists description w',
     describeImageForGeneration api w = (Ret description, w')) /\
  (forall cs, describeImageForGeneration (inr (mkResponse None cs)) w
              = (Ret "", w)).
Proof.
  repeat split.
  intros [e|r].
  - eexists _, _. reflexivity.
  - eexists _, _. reflexivity.
Qed.

Lemma has_string_uri_search_link (c : chunk) :
  has_uri c = true -> has_string_uri (search_link c) = true.
Proof.
  unfold has_uri, web_uri, search_link, has_string_uri.
  destruct (web c) as [s|]; [| discriminate].
  destruct (uri s) as [u|]; [| discriminate].
  simpl. intros H. exact H.
Qed.

(** X6: when the response carries a list of citations, every entry of
    [searchLinks] has a uri that is a non-empty string, there are no more
    entries than citations, a [searchLinks] that the model wrote into its
    text is replaced, and every other key of the parsed text is kept. *)
Theorem analyzeProductImage_links_have_uri (JSON_parse : string -> error + jobj)
    (r : response) (text : string) (parsed : jobj) (chunks : list chunk)
    (w : world) :
  response_text r = Some text -> text <> "" -> JSON_parse text = inr parsed ->
  response_chunks r = Some chunks ->
  exists result links,
    analyzeProductImage JSON_parse (inr r) w = (Ret result, w) /\
    get_prop result "searchLinks" = VArr links /\
    forallb has_string_uri links = true /\
    (length links <= length chunks)%nat /\
    (forall k, k <> "searchLinks" ->
               get_prop result k = get_prop (parse_obj parsed) k).
Proof.
  intros Ht Hne Hp Hc.
  eexists _, _.
  rewrite (analyzeProductImage_success _ _ _ _ _ Ht Hne Hp), Hc.
  split; [reflexivity |]. split; [apply get_prop_set_prop_eq |].
  split; [| split].
  - induction chunks as [|c chunks IH] in |- *; simpl; [reflexivity |].
    destruct (has_uri c) eqn:E; simpl; [| exact IH].
    now rewrite (has_string_uri_search_link c E), IH.
  - rewrite length_map. apply List.filter_length_le.
  - intros k Hk. apply get_prop_set_prop_ne. congruence.
Qed.

Lemma analyzeProductImage_links_have_uri_witness :
  exists result links,
    analyzeProductImage read_phone (inr (cited [mkChunk None; shop])) offline
    = (Ret result, offline) /\
    get_prop result "searchLinks" = VArr links /\
    forallb has_string_uri links = true /\
    (length links <= 2)%nat /\
    (forall k, k <> "searchLinks" ->
               get_prop result k = get_prop (parse_obj phone) k).
Proof.
  exact (analyzeProductImage_links_have_uri read_phone
           (cited [mkChunk None; shop]) phone_text phone [mkChunk None; shop]
           offline eq_refl ltac:(discriminate) eq_refl eq_refl).
Defined.

(** ** sanitizeForFirestore: what it removes and what it leaves *)

Lemma existsb_filter_le {A} (p q : A -> bool) (l : list A) :
  existsb p (List.filter q l) = true -> existsb p l = true.
Proof.
  induction l as [|x l IH]; simpl; [discriminate |].
  destruct (q x); simpl.
  - intros H. apply orb_true_iff in H as [H|H].
    + now rewrite H.
    + rewrite (IH H). apply orb_true_r.
  - intros H. rewrite (IH H). apply orb_true_r.
Qed.

Lemma unique_names_strip_fields (o : obj) :
  unique_names (map fst o) = true ->
  unique_names (map fst (strip_fields o)) = true.
Proof.
  unfold strip_fields.
  induction o as [|[k x] o IH]; simpl; [reflexivity |].
  intros H. apply andb_true_iff in H as [Hk Ho].
  destruct (negb (is_undefined (strip_undefined x))); simpl; [| exact (IH Ho)].
  rewrite (IH Ho), andb_true_r.
  apply negb_true_iff. apply negb_true_iff in Hk.
  destruct (existsb (String.eqb k) (map fst (List.filter _ _))) eqn:E;
    [| reflexivity].
  rewrite <- Hk. symmetry.
  rewrite <- has_key_existsb in *.
  rewrite has_key_existsb in E.
  assert (Hsub : forall (l : obj),
             existsb (String.eqb k)
               (map fst (List.filter
                           (fun kv => negb (is_undefined (snd kv)))
                           (map (fun kv => (fst kv, strip_undefined (snd kv))) l)))
             = true -> has_key l k = true).
  { clear. induction l as [|[k' y] l IHl]; simpl; [discriminate |].
    destruct (negb (is_undefined (strip_undefined y))); simpl.
    - rewrite (String.eqb_sym k k'). intros H.
      apply orb_true_iff in H as [H|H]; [now rewrite H |].
      rewrite (IHl H). apply orb_true_r.
    - intros H. rewrite (IHl H). apply orb_true_r. }
  now apply Hsub.
Qed.

Lemma distinct_strip (v : value) :
  distinct_keys v = true -> distinct_keys (strip_undefined v) = true.
Proof.
  induction v as [| | | | |l IH|o IH] using value_nested_ind;
    simpl; try reflexivity; intros Hd.
  - induction IH as [|x l Hx _ IHl]; simpl; [reflexivity |].
    simpl in Hd. apply andb_true_iff in Hd as [Hdx Hl].
    now rewrite (Hx Hdx), (IHl Hl).
  - apply andb_true_iff in Hd as [Hu Hall].
    apply andb_true_iff. split.
    + now apply unique_names_strip_fields.
    + clear Hu. induction IH as [|[k x] o Hx _ IHo]; simpl; [reflexivity |].
      simpl in Hall, Hx. apply andb_true_iff in Hall as [Hdx Ho].
      destruct (negb (is_undefined (strip_undefined x))); simpl.
      * now rewrite (Hx Hdx), (IHo Ho).
      * exact (IHo Ho).
Qed.

Lemma strip_clean (v : value) :
  no_undefined_field v = true -> strip_undefined v = v.
Proof.
  induction v as [| | | | |l IH|o IH] using value_nested_ind;
    simpl; try reflexivity; intros Hc.
  - f_equal. induction IH as [|x l Hx _ IHl]; simpl; [reflexivity |].
    simpl in Hc. apply andb_true_iff in Hc as [Hcx Hl].
    now rewrite (Hx Hcx), (IHl Hl).
  - f_equal. induction IH as [|[k x] o Hx _ IHo]; simpl; [reflexivity |].
    simpl in Hc, Hx. apply andb_true_iff in Hc as [Hcx Ho].
    apply andb_true_iff in Hcx as [Hnu Hcx].
    rewrite is_undefined_strip, Hnu, (Hx Hcx), (IHo Ho). reflexivity.
Qed.

(** X7: on a well-formed value [sanitizeForFirestore] is idempotent, and
    it returns a value that has no undefined field as it is. *)
Theorem sanitizeForFirestore_idempotent (v : value) :
  distinct_keys v = true ->
  sanitizeForFirestore (sanitizeForFirestore v) = sanitizeForFirestore v /\
  (no_undefined_field v = true -> sanitizeForFirestore v = v).
Proof.
  intros Hd. split.
  - rewrite (sanitize_is_strip v Hd).
    rewrite (sanitize_is_strip _ (distinct_strip v Hd)).
    apply strip_clean, strip_no_undefined_field.
  - intros Hc. rewrite (sanitize_is_strip v Hd). now apply strip_clean.
Qed.

Lemma sanitizeForFirestore_idempotent_witness :
  sanitizeForFirestore (sanitizeForFirestore (VObj analysis))
  = sanitizeForFirestore (VObj analysis).
Proof.
  exact (proj1 (sanitizeForFirestore_idempotent (VObj analysis) eq_refl)).
Defined.

Lemma has_undefined_strip (v : value) :
  has_undefined (strip_undefined v) = is_undefined v || negb (dense_arrays v).
Proof.
  induction v as [| | | | |l IH|o IH] using value_nested_ind;
    simpl; try reflexivity.
  - induction IH as [|x l Hx _ IHl]; simpl; [reflexivity |].
    rewrite Hx, IHl.
    destruct (is_undefined x), (dense_arrays x); reflexivity.
  - induction IH as [|[k x] o Hx _ IHo]; simpl; [reflexivity |].
    simpl in Hx. rewrite is_undefined_strip.
    destruct (is_undefined x) eqn:Eu; simpl.
    + destruct x; try discriminate. simpl. exact IHo.
    + rewrite Hx, IHo. simpl.
      destruct (dense_arrays x); reflexivity.
Qed.

(** X8: [sanitizeForFirestore] removes undefined fields only: undefined
    is left somewhere in its result exactly when the value is undefined
    itself or holds undefined as an element of some sequence. *)
Theorem sanitizeForFirestore_leaves_sequence_items (v : value) :
  distinct_keys v = true ->
  has_undefined (sanitizeForFirestore v)
  = is_undefined v || negb (dense_arrays v).
Proof.
  intros Hd. rewrite (sanitize_is_strip v Hd). apply has_undefined_strip.
Qed.

Lemma sanitizeForFirestore_leaves_sequence_items_witness :
  has_undefined
    (sanitizeForFirestore
       (VObj [("rating", VUndefined); ("keyFeatures", VArr [VUndefined])]))
  = true.
Proof.
  exact (sanitizeForFirestore_leaves_sequence_items
           (VObj [("rating", VUndefined); ("keyFeatures", VArr [VUndefined])])
           eq_refl).
Defined.

(** ** Local-only mode *)

Lemma saveToDatabase_offline (e : env) (col : string) (data : obj) (w : world) :
  isRealBackendAvailable w = false -> saveToDatabase e col data w = (Ret tt, w).
Proof. intros H. unfold saveToDatabase. now rewrite H. Qed.

(** X9: the demo flag as the sign-in code sets it ('true') turns cloud
    mode off, and with cloud mode off nothing reaches the cloud: the three
    saves leave the Firestore collections and the console as they were,
    and the three loaders return the local lists whatever the cloud would
    answer. *)
Theorem local_only_mode (w : world) :
  (isDemoActive w = true -> isRealBackendAvailable w = false) /\
  (isRealBackendAvailable w = false ->
   forall e record,
     (firestore (snd (saveToHistory e record w)) = firestore w /\
      console (snd (saveToHistory e record w)) = console w) /\
     (firestore (snd (saveChatSession e record w)) = firestore w /\
      console (snd (saveChatSession e record w)) = console w) /\
     (firestore (snd (saveGeneration e record w)) = firestore w /\
      console (snd (saveGeneration e record w)) = console w) /\
     getHistory e w = (Ret (map parse_obj (slot w ANALYSIS_KEY)), w) /\
     getChatHistory e w = (Ret (map parse_obj (slot w CHAT_KEY)), w) /\
     getGenerationHistory e w = (Ret (map parse_obj (slot w TOOLS_KEY)), w)).
Proof.
  split.
  - unfold isDemoActive, isRealBackendAvailable.
    destruct (demo_auth_active w) as [s|]; [| discriminate].
    intros H. apply String.eqb_eq in H. subst s.
    now rewrite andb_false_r.
  - intros Hoff e record.
    rewrite saveToHistory_world, saveChatSession_world, saveGeneration_world.
    rewrite !saveToDatabase_offline by assumption. cbn [snd firestore console].
    repeat split.
    + exact (load_offline "analyses" ANALYSIS_KEY e w Hoff).
    + exact (load_offline "chats" CHAT_KEY e w Hoff).
    + exact (load_offline "generations" TOOLS_KEY e w Hoff).
Qed.

(** A world in demo mode although a store and a user are there. *)
Lemma local_only_mode_witness :
  let demo := mkWorld true (Some "u1") (Some "true") ∅ ∅ [] in
  isRealBackendAvailable demo = false /\
  firestore (snd (saveGeneration quiet (generation "G1" "first") demo)) = ∅.
Proof.
  cbv zeta.
  pose (demo := mkWorld true (Some "u1") (Some "true") ∅ ∅ []).
  pose proof (proj1 (local_only_mode demo) eq_refl) as Hoff.
  split; [exact Hoff |].
  exact (proj1 (proj1 (proj2 (proj2
           (proj2 (local_only_mode demo) Hoff quiet (generation "G1" "first")))))).
Defined.

(** ** Records read from the cloud *)

Lemma fold_set_prop_lookup (l acc : obj) (k : string) :
  unique_names (map fst l) = true ->
  get_prop (fold_left (fun acc kv => set_prop acc (fst kv) (snd kv)) l acc) k
  = if has_key l k then get_prop l k else get_prop acc k.
Proof.
  revert acc. induction l as [|[k0 v0] l IH]; intros acc Hu; simpl; [reflexivity |].
  simpl in Hu. apply andb_true_iff in Hu as [Hk0 Hu].
  rewrite (IH _ Hu).
  destruct (String.eqb k0 k) eqn:E; simpl.
  - apply String.eqb_eq in E. subst k0.
    apply negb_true_iff in Hk0. rewrite <- has_key_existsb in Hk0.
    now rewrite Hk0, get_prop_set_prop_eq.
  - destruct (has_key l k); [reflexivity |].
    apply get_prop_set_prop_ne. intros ->. now rewrite String.eqb_refl in E.
Qed.

Lemma doc_record_lookup (key : string) (d : jobj) (k : string) :
  unique_names (map fst d) = true ->
  get_prop (doc_record (key, d)) k
  = if has_key d k then get_prop (parse_obj d) k
    else if String.eqb k "id" then VStr key else VUndefined.
Proof.
  intros Hu. unfold doc_record. cbn [fst snd].
  rewrite fold_set_prop_lookup by now rewrite map_fst_parse_obj.
  rewrite has_key_parse_obj.
  destruct (has_key d k); [reflexivity |].
  simpl. now rewrite (String.eqb_sym k "id").
Qed.

(** X10: a record read from the cloud has the properties of the stored
    document; its id is the id field of the document when the document
    has one, and the key of the document otherwise. *)
Theorem doc_record_properties (key : string) (d : jobj) :
  unique_names (map fst d) = true ->
  (forall k, has_key d k = true ->
             get_prop (doc_record (key, d)) k = get_prop (parse_obj d) k) /\
  (has_key d "id" = false -> get_prop (doc_record (key, d)) "id" = VStr key) /\
  (forall k, has_key d k = false -> k <> "id" ->
             get_prop (doc_record (key, d)) k = VUndefined).
Proof.
  intros Hu. split; [| split].
  - intros k Hk. now rewrite doc_record_lookup, Hk.
  - intros Hk. now rewrite doc_record_lookup, Hk.
  - intros k Hk Hne. rewrite doc_record_lookup, Hk by assumption.
    destruct (String.eqb k "id") eqn:E; [| reflexivity].
    apply String.eqb_eq in E. contradiction.
Qed.

Lemma doc_record_properties_witness :
  get_prop (doc_record ("auto-7", jgeneration "G1" "first")) "id" = VStr "G1" /\
  get_prop (doc_record ("auto-7", [("prompt", JStr "first")])) "id"
  = VStr "auto-7".
Proof.
  split.
  - exact (proj1 (doc_record_properties "auto-7" (jgeneration "G1" "first")
                    eq_refl) "id" eq_refl).
  - exact (proj1 (proj2 (doc_record_properties "auto-7"
                           [("prompt", JStr "first")] eq_refl)) eq_refl).
Defined.

(** ** The entry that saveToHistory builds *)

Lemma truthy_js_or (a b : value) : truthy b = true -> truthy (js_or a b) = true.
Proof. intros H. unfold js_or. destruct (truthy a) eqn:E; assumption. Qed.

(** X11: when the generated identifier is not empty and the clock is not
    0, the entry of [saveToHistory] has a truthy id and a truthy
    timestamp, every other property is the record's, and building the
    entry again from the entry changes nothing: a record that was saved
    and loaded is saved again as it is. *)
Theorem newEntry_stable (e e' : env) (result : obj) :
  randomUUID e <> "" -> Date_now e <> 0 ->
  truthy (get_prop (newEntry e result) "id") = true /\
  truthy (get_prop (newEntry e result) "timestamp") = true /\
  (forall k, k <> "id" -> k <> "timestamp" ->
             get_prop (newEntry e result) k = get_prop result k) /\
  newEntry e' (newEntry e result) = newEntry e result.
Proof.
  intros Hu Hn.
  assert (Hid : truthy (get_prop (newEntry e result) "id") = true).
  { unfold newEntry. rewrite get_prop_set_prop_ne by discriminate.
    rewrite get_prop_set_prop_eq. apply truthy_js_or. simpl.
    destruct (String.eqb (randomUUID e) "") eqn:E; [| reflexivity].
    apply String.eqb_eq in E. contradiction. }
  assert (Hts : truthy (get_prop (newEntry e result) "timestamp") = true).
  { unfold newEntry. rewrite get_prop_set_prop_eq. apply truthy_js_or. simpl.
    destruct (Date_now e =? 0) eqn:E; [| reflexivity].
    apply Z.eqb_eq in E. contradiction. }
  split; [exact Hid | split; [exact Hts | split]].
  - intros k Hk1 Hk2. unfold newEntry.
    rewrite !get_prop_set_prop_ne by congruence. reflexivity.
  - now apply newEntry_complete.
Qed.

Lemma newEntry_stable_witness :
  newEntry quiet (newEntry quiet [("productName", VStr "Phone")])
  = newEntry quiet [("productName", VStr "Phone")].
Proof.
  exact (proj2 (proj2 (proj2
           (newEntry_stable quiet quiet [("productName", VStr "Phone")]
              ltac:(discriminate) ltac:(discriminate))))).
Defined.

(** X12: the record that the analysis page builds and shows,
    [{...data, id, timestamp}] with a non-empty identifier and a clock
    that is not 0, is saved by [saveToHistory] as it is: the identifier
    and the time of [saveToHistory] itself are not used, and the head of
    the local list is that record as JSON writes it. *)
Theorem finalData_saved_as_shown (uuid : string) (now : Z) (data : obj)
    (e : env) (w : world) :
  uuid <> "" -> now <> 0 ->
  newEntry e (finalData uuid now data) = finalData uuid now data /\
  get_prop (finalData uuid now data) "id" = VStr uuid /\
  get_prop (finalData uuid now data) "timestamp" = VNum now /\
  slot (snd (saveToHistory e (finalData uuid now data) w)) ANALYSIS_KEY
  = take 10 (stringify_obj (finalData uuid now data) :: slot w ANALYSIS_KEY).
Proof.
  intros Hu Hn.
  assert (Hid : get_prop (finalData uuid now data) "id" = VStr uuid).
  { unfold finalData. rewrite get_prop_set_prop_ne by discriminate.
    apply get_prop_set_prop_eq. }
  assert (Hts : get_prop (finalData uuid now data) "timestamp" = VNum now).
  { unfold finalData. apply get_prop_set_prop_eq. }
  assert (Hsame : newEntry e (finalData uuid now data) = finalData uuid now data).
  { apply newEntry_complete.
    - rewrite Hid. simpl. destruct (String.eqb uuid "") eqn:E; [| reflexivity].
      apply String.eqb_eq in E. contradiction.
    - rewrite Hts. simpl. destruct (now =? 0) eqn:E; [| reflexivity].
      apply Z.eqb_eq in E. contradiction. }
  repeat split; try assumption.
  now rewrite saveToHistory_slot, Hsame.
Qed.

Lemma finalData_saved_as_shown_witness :
  newEntry quiet (finalData "u-7" 42 [("productName", VStr "Phone")])
  = [("productName", VStr "Phone"); ("id", VStr "u-7"); ("timestamp", VNum 42)].
Proof.
  exact (proj1 (finalData_saved_as_shown "u-7" 42 [("productName", VStr "Phone")]
                  quiet offline ltac:(discriminate) ltac:(discriminate))).
Defined.

(** ** Chat sessions: one entry for each id *)

Lemma strict_eq_string (v : value) (id : string) :
  strict_eq v (VStr id) = true -> v = VStr id.
Proof.
  destruct v; simpl; try discriminate.
  intros H. apply String.eqb_eq in H. now subst.
Qed.

Lemma distinct_values_take (n : nat) (vs : list value) :
  distinct_values vs = true -> distinct_values (take n vs) = true.
Proof.
  revert n. induction vs as [|v vs IH]; intros [|n]; simpl; try reflexivity.
  intros H. apply andb_true_iff in H as [Hv Hvs].
  rewrite (IH n Hvs), andb_true_r.
  apply negb_true_iff. apply negb_true_iff in Hv. now apply existsb_take.
Qed.

(** X13: [saveChatSession] keeps the ids of the local chat list distinct:
    when no two stored sessions have the same id, none have after a
    session is saved. *)
Theorem saveChatSession_keeps_ids_unique (e : env) (session : obj)
    (id : string) (w : world) :
  get_prop session "id" = VStr id ->
  unique_ids (slot w CHAT_KEY) = true ->
  unique_ids (slot (snd (saveChatSession e session w)) CHAT_KEY) = true.
Proof.
  intros Hid Hu. rewrite saveChatSession_chat_update.
  set (l := slot w CHAT_KEY) in *.
  assert (Hx : id_of (stringify_obj session) = VStr id)
    by exact (stored_id session "id" id Hid).
  assert (Hp : forall t, same_id session t = strict_eq (id_of t) (VStr id)).
  { intros t. unfold same_id, id_of. now rewrite Hid. }
  unfold unique_ids in *.
  destruct (existsb (same_id session) l) eqn:E.
  - destruct (existsb_split _ l E) as [a [y [b [-> [Ha Hy]]]]].
    rewrite (chat_update_replaces _ _ y a b Ha Hy).
    rewrite Hp in Hy. apply strict_eq_string in Hy.
    rewrite !map_app in *. simpl in *. now rewrite Hx, <- Hy.
  - rewrite (chat_update_prepends _ _ l E). simpl. rewrite Hx.
    apply andb_true_iff. split.
    + apply negb_true_iff.
      rewrite <- firstn_map. apply existsb_take.
      rewrite <- E. clear - Hp.
      induction l as [|t l IH]; simpl; [reflexivity |].
      now rewrite IH, Hp.
    + rewrite <- firstn_map. now apply distinct_values_take.
Qed.

Lemma saveChatSession_keeps_ids_unique_witness :
  unique_ids (slot (snd (saveChatSession quiet (chat "S1" "later") six_chats))
                CHAT_KEY) = true.
Proof.
  exact (saveChatSession_keeps_ids_unique quiet (chat "S1" "later") "S1"
           six_chats eq_refl eq_refl).
Defined.

(** ** Loading what was saved, when the cloud is silent *)

Lemma load_when_silent (name key : string) (q : env) (w : world) :
  (negb (isRealBackendAvailable w) ||
   match getDocs q name 20 with inr (_ :: _) => false | _ => true end) = true ->
  exists w',
    load name key q w = (Ret (map parse_obj (slot w key)), w') /\
    localStorage w' = localStorage w /\ firestore w' = firestore w.
Proof.
  intros H.
  destruct (load_prefers_cloud name key q w) as [_ [Hempty [Hoff [Herr _]]]].
  destruct (isRealBackendAvailable w) eqn:Hc.
  - simpl in H. destruct (getDocs q name 20) as [err|[|d docs]] eqn:Hq;
      [| | discriminate].
    + rewrite (Herr err eq_refl eq_refl). eexists. split; [reflexivity |].
      destruct (bool_decide _); split; reflexivity.
    + rewrite (Hempty eq_refl eq_refl). eauto.
  - rewrite (Hoff eq_refl). eauto.
Qed.

(** X14: in every mode, when the cloud is silent for the kind (cloud mode
    off, or the read throws, or it answers no record), the loader returns
    what the save has just mirrored locally, also when the cloud write of
    that save failed: the analysis entry and the generation at the head of
    the list, the chat session at its position. *)
Theorem save_is_visible_when_cloud_is_silent (e q : env) (record : obj)
    (w : world) :
  (cloud_silent q "analyses" w = true ->
   exists rest w',
     getHistory q (snd (saveToHistory e record w))
     = (Ret (parse_obj (stringify_obj (newEntry e record)) :: rest), w')) /\
  (cloud_silent q "generations" w = true ->
   exists rest w',
     getGenerationHistory q (snd (saveGeneration e record w))
     = (Ret (parse_obj (stringify_obj record) :: rest), w')) /\
  (cloud_silent q "chats" w = true ->
   exists loaded w',
     getChatHistory q (snd (saveChatSession e record w)) = (Ret loaded, w') /\
     loaded !! session_position record (slot w CHAT_KEY)
     = Some (parse_obj (stringify_obj record))).
Proof.
  unfold cloud_silent. split; [| split]; intros H.
  - destruct (load_when_silent "analyses" ANALYSIS_KEY q
                (snd (saveToHistory e record w))) as [w' [Hl _]].
    { now rewrite saveToHistory_mode. }
    change (getHistory q) with (load "analyses" ANALYSIS_KEY q).
    rewrite Hl, saveToHistory_slot. simpl take. rewrite map_cons. eauto.
  - destruct (load_when_silent "generations" TOOLS_KEY q
                (snd (saveGeneration e record w))) as [w' [Hl _]].
    { now rewrite saveGeneration_mode. }
    change (getGenerationHistory q) with (load "generations" TOOLS_KEY q).
    rewrite Hl, saveGeneration_slot. simpl take. rewrite map_cons. eauto.
  - destruct (load_when_silent "chats" CHAT_KEY q
                (snd (saveChatSession e record w))) as [w' [Hl _]].
    { now rewrite saveChatSession_mode. }
    change (getChatHistory q) with (load "chats" CHAT_KEY q).
    rewrite Hl. eexists _, _. split; [reflexivity |].
    now rewrite list_lookup_fmap, saveChatSession_position.
Qed.

Lemma save_is_visible_when_cloud_is_silent_witness :
  exists rest w',
    getGenerationHistory unreachable
      (snd (saveGeneration unreachable (generation "G1" "first") online))
    = (Ret (generation "G1" "first" :: rest), w').
Proof.
  exact (proj1 (proj2 (save_is_visible_when_cloud_is_silent unreachable
                         unreachable (generation "G1" "first") online))
           eq_refl).
Defined.

(** ** Records without an id *)

Lemma has_key_strip_fields (o : obj) (k : string) :
  has_key (strip_fields o) k = true -> has_key o k = true.
Proof.
  unfold strip_fields. induction o as [|[k' x] o IH]; simpl; [discriminate |].
  destruct (negb (is_undefined (strip_undefined x))); simpl.
  - intros H. apply orb_true_iff in H as [H|H]; [now rewrite H |].
    rewrite (IH H). apply orb_true_r.
  - intros H. rewrite (IH H). apply orb_true_r.
Qed.

Lemma get_prop_strip_fields_unique (o : obj) (k : string) :
  unique_names (map fst o) = true ->
  get_prop (strip_fields o) k = strip_undefined (get_prop o k).
Proof.
  induction o as [|[k' x] o IH]; simpl; [reflexivity |].
  intros H. apply andb_true_iff in H as [Hk Ho].
  unfold strip_fields in *. simpl. rewrite is_undefined_strip.
  destruct (String.eqb k' k) eqn:E.
  - apply String.eqb_eq in E. subst k'.
    destruct (is_undefined x) eqn:Eu; simpl.
    + destruct x; try discriminate. simpl.
      apply get_prop_absent.
      destruct (has_key _ k) eqn:Eh; [| reflexivity].
      apply has_key_strip_fields in Eh.
      apply negb_true_iff in Hk. rewrite <- has_key_existsb in Hk. congruence.
    + now rewrite String.eqb_refl.
  - destruct (is_undefined x); simpl; [| rewrite E]; exact (IH Ho).
Qed.

Lemma truthy_strip (v : value) : truthy (strip_undefined v) = truthy v.
Proof. destruct v; reflexivity. Qed.

Lemma stringify_obj_keys (o : obj) :
  dense_arrays (VObj o) = true ->
  map fst (stringify_obj o) = map fst (strip_fields o).
Proof.
  intros Hd. pose proof (parse_stringify_obj o Hd) as H. simpl in H.
  injection H as H. unfold strip_fields. rewrite <- H.
  now rewrite map_fst_parse_obj.
Qed.

(** X15: in cloud mode with the network up, a record whose id is missing
    or falsy is added under the key that Firestore assigns, and a record
    without an id key then reads back with that key as its id. *)
Theorem saveToDatabase_adds_without_id (e : env) (col : string) (data : obj)
    (w : world) (uid : string) :
  isRealBackendAvailable w = true -> currentUser w = Some uid ->
  net e = None ->
  truthy (get_prop data "id") = false ->
  dense_arrays (VObj data) = true -> distinct_keys (VObj data) = true ->
  saveToDatabase e col data w
  = (Ret tt,
     with_documents w uid col
       (<[autoId e := stringify_obj data]> (documents w uid col))) /\
  (has_key data "id" = false ->
   get_prop (doc_record (autoId e, stringify_obj data)) "id" = VStr (autoId e)).
Proof.
  intros Hc Hu Hnet Hid Hd Hk. split.
  - unfold saveToDatabase. rewrite Hc, Hu. unfold try_catch. cbv zeta.
    assert (Hfalsy : truthy (prop (sanitizeForFirestore (VObj data)) "id") = false).
    { rewrite sanitize_is_strip by assumption.
      change (truthy (get_prop (strip_fields data) "id") = false).
      simpl in Hk. apply andb_true_iff in Hk as [Hu' _].
      now rewrite get_prop_strip_fields_unique, truthy_strip. }
    rewrite Hfalsy. unfold addDoc.
    rewrite Hnet, (to_document_sanitized data Hd Hk). reflexivity.
  - intros Hno.
    assert (Hkeys := stringify_obj_keys data Hd).
    simpl in Hk. apply andb_true_iff in Hk as [Hu' _].
    rewrite doc_record_lookup.
    + destruct (has_key (stringify_obj data) "id") eqn:E; [| reflexivity].
      rewrite has_key_existsb, Hkeys, <- has_key_existsb in E.
      apply has_key_strip_fields in E. congruence.
    + rewrite Hkeys. now apply unique_names_strip_fields.
Qed.

Lemma saveToDatabase_adds_without_id_witness :
  saveToDatabase quiet "generations" [("prompt", VStr "first")] online
  = (Ret tt,
     with_documents online "u1" "generations"
       (<["auto-0" := [("prompt", JStr "first")]]> ∅)).
Proof.
  exact (proj1 (saveToDatabase_adds_without_id quiet "generations"
                  [("prompt", VStr "first")] online "u1"
                  eq_refl eq_refl eq_refl eq_refl eq_refl eq_refl)).
Defined.

(** ** Clearing *)

Lemma clearLocalHistory_world (w : world) :
  clearLocalHistory w
  = (Ret tt,
     mkWorld (db w) (currentUser w) (demo_auth_active w)
       (delete TOOLS_KEY (delete CHAT_KEY (delete ANALYSIS_KEY (localStorage w))))
       (firestore w) (console w)).
Proof. reflexivity. Qed.

Lemma clearCollection_world (ce : clear_env) (uid col : string) (w : world) :
  clearCollection ce uid col w = (Ret tt, cleared ce uid col w).
Proof.
  unfold clearCollection, cleared, try_catch.
  destruct (list_fault ce col); [reflexivity |].
  cbv zeta. destruct (first_rejection ce col (documents w uid col)); reflexivity.
Qed.

Lemma cleared_frame (ce : clear_env) (uid col : string) (w : world) :
  db (cleared ce uid col w) = db w /\
  currentUser (cleared ce uid col w) = currentUser w /\
  demo_auth_active (cleared ce uid col w) = demo_auth_active w /\
  localStorage (cleared ce uid col w) = localStorage w.
Proof.
  unfold cleared. destruct (list_fault ce col); [now repeat split |].
  cbv zeta. destruct (first_rejection ce col _); now repeat split.
Qed.

Lemma documents_logged (w : world) (line : string) (err : error)
    (uid col : string) :
  documents (logged w line err) uid col = documents w uid col.
Proof. reflexivity. Qed.

Lemma documents_with_documents_ne (w : world) (uid col uid' col' : string)
    (docs : gmap string jobj) :
  (uid, col) <> (uid', col') ->
  documents (with_documents w uid col docs) uid' col' = documents w uid' col'.
Proof.
  intros H. unfold documents, with_documents. cbn. now rewrite lookup_insert_ne.
Qed.

Lemma cleared_documents (ce : clear_env) (uid col : string) (w : world) :
  documents (cleared ce uid col w) uid col
  = match list_fault ce col with
    | Some _ => documents w uid col
    | None => delete_all ce col (documents w uid col)
    end.
Proof.
  unfold cleared. destruct (list_fault ce col); [reflexivity |].
  cbv zeta. destruct (first_rejection ce col _);
    rewrite ?documents_logged; apply documents_with_documents.
Qed.

Lemma cleared_documents_ne (ce : clear_env) (uid col uid' col' : string)
    (w : world) :
  (uid, col) <> (uid', col') ->
  documents (cleared ce uid col w) uid' col' = documents w uid' col'.
Proof.
  intros H. unfold cleared. destruct (list_fault ce col); [reflexivity |].
  cbv zeta. destruct (first_rejection ce col _);
    rewrite ?documents_logged; now apply documents_with_documents_ne.
Qed.

Lemma delete_some_lookup (refused : string -> bool) (l : list (string * jobj))
    (m : gmap string jobj) (k : string) :
  foldr (fun kv acc => if refused (fst kv) then acc else delete (fst kv) acc) m l
    !! k
  = if existsb (String.eqb k) (map fst l) && negb (refused k) then None
    else m !! k.
Proof.
  induction l as [|[k0 v0] l IH]; simpl; [reflexivity |].
  destruct (String.eqb k k0) eqn:E; simpl.
  - apply String.eqb_eq in E. subst k0.
    destruct (refused k) eqn:R; simpl.
    + rewrite IH. now rewrite andb_false_r.
    + now rewrite lookup_delete_eq.
  - assert (k0 <> k) by (intros ->; now rewrite String.eqb_refl in E).
    destruct (refused k0); [exact IH |].
    now rewrite lookup_delete_ne.
Qed.

Lemma delete_all_lookup (ce : clear_env) (col : string)
    (docs : gmap string jobj) (k : string) :
  delete_all ce col docs !! k
  = match delete_fault ce col k with
    | Some _ => docs !! k
    | None => None
    end.
Proof.
  unfold delete_all.
  set (refused := fun k0 => match delete_fault ce col k0 with
                            | Some _ => true
                            | None => false
                            end).
  assert (Hfold : forall (l : list (string * jobj)) (m : gmap string jobj),
             foldr (fun kv acc =>
                      match delete_fault ce col (fst kv) with
                      | Some _ => acc
                      | None => delete (fst kv) acc
                      end) m l
             = foldr (fun kv acc =>
                        if refused (fst kv) then acc else delete (fst kv) acc)
                 m l).
  { induction l as [|[k0 v0] l IH]; intros m; simpl; [reflexivity |].
    rewrite IH. unfold refused. now destruct (delete_fault ce col k0). }
  rewrite Hfold, delete_some_lookup. unfold refused.
  destruct (delete_fault ce col k) as [err|] eqn:F; simpl.
  - now rewrite andb_false_r.
  - rewrite andb_true_r.
    destruct (existsb (String.eqb k) (map fst (map_to_list docs))) eqn:E;
      [reflexivity |].
    destruct (docs !! k) as [v|] eqn:L; [| reflexivity].
    apply elem_of_map_to_list in L.
    assert (existsb (String.eqb k) (map fst (map_to_list docs)) = true)
      as Hex; [| congruence].
    apply existsb_exists. exists k. split; [| apply String.eqb_refl].
    apply list_elem_of_In. change k with (fst (k, v)).
    now apply list_elem_of_fmap_2.
Qed.

Lemma clearAllUserData_world (ce : clear_env) (w : world) :
  clearAllUserData ce w
  = (Ret tt,
     let w0 := snd (clearLocalHistory w) in
     match isRealBackendAvailable w, currentUser w with
     | true, Some uid =>
         cleared ce uid "generations"
           (cleared ce uid "chats" (cleared ce uid "analyses" w0))
     | _, _ => w0
     end).
Proof.
  unfold clearAllUserData, mbind, M_bind at 1.
  rewrite clearLocalHistory_world. cbv zeta. cbn [snd].
  change (isRealBackendAvailable (mkWorld (db w) (currentUser w)
            (demo_auth_active w) _ (firestore w) (console w)))
    with (isRealBackendAvailable w).
  cbn [currentUser].
  destruct (isRealBackendAvailable w); [| reflexivity].
  destruct (currentUser w) as [uid|]; [| reflexivity].
  unfold mbind, M_bind. now rewrite !clearCollection_world.
Qed.

Lemma clearAllUserData_frame (ce : clear_env) (w : world) :
  let w' := snd (clearAllUserData ce w) in
  db w' = db w /\ currentUser w' = currentUser w /\
  demo_auth_active w' = demo_auth_active w /\
  localStorage w'
  = delete TOOLS_KEY (delete CHAT_KEY (delete ANALYSIS_KEY (localStorage w))).
Proof.
  cbv zeta. rewrite clearAllUserData_world. cbn [snd].
  rewrite clearLocalHistory_world. cbn [snd].
  destruct (isRealBackendAvailable w); [| now repeat split].
  destruct (currentUser w) as [uid|]; [| now repeat split].
  set (w0 := mkWorld _ _ _ _ _ _).
  destruct (cleared_frame ce uid "analyses" w0) as [A1 [A2 [A3 A4]]].
  destruct (cleared_frame ce uid "chats" (cleared ce uid "analyses" w0))
    as [B1 [B2 [B3 B4]]].
  destruct (cleared_frame ce uid "generations"
              (cleared ce uid "chats" (cleared ce uid "analyses" w0)))
    as [C1 [C2 [C3 C4]]].
  rewrite C1, C2, C3, C4, B1, B2, B3, B4, A1, A2, A3, A4.
  now repeat split.
Qed.

Lemma slot_deleted (w w' : world) (key : string) :
  localStorage w'
  = delete TOOLS_KEY (delete CHAT_KEY (delete ANALYSIS_KEY (localStorage w))) ->
  (key = ANALYSIS_KEY \/ key = CHAT_KEY \/ key = TOOLS_KEY) ->
  slot w' key = [].
Proof.
  intros Hl Hk. unfold slot. rewrite Hl.
  destruct Hk as [-> | [-> | ->]].
  - rewrite lookup_delete_ne, lookup_delete_ne, lookup_delete_eq by discriminate.
    reflexivity.
  - rewrite lookup_delete_ne, lookup_delete_eq by discriminate. reflexivity.
  - now rewrite lookup_delete_eq.
Qed.

(** X16: [clearAllUserData] never throws and always empties the three
    local lists, whatever the cloud does; it leaves the other keys of the
    local storage and the mode as they are, and a loader whose cloud is
    silent returns the empty list afterwards. *)
Theorem clearAllUserData_empties_local (ce : clear_env) (w : world) :
  fst (clearAllUserData ce w) = Ret tt /\
  (let w' := snd (clearAllUserData ce w) in
   slot w' ANALYSIS_KEY = [] /\ slot w' CHAT_KEY = [] /\ slot w' TOOLS_KEY = [] /\
   (forall key, key <> ANALYSIS_KEY -> key <> CHAT_KEY -> key <> TOOLS_KEY ->
                localStorage w' !! key = localStorage w !! key) /\
   isRealBackendAvailable w' = isRealBackendAvailable w /\
   (forall q, cloud_silent q "analyses" w = true ->
              fst (getHistory q w') = Ret []) /\
   (forall q, cloud_silent q "chats" w = true ->
              fst (getChatHistory q w') = Ret []) /\
   (forall q, cloud_silent q "generations" w = true ->
              fst (getGenerationHistory q w') = Ret [])).
Proof.
  split; [now rewrite clearAllUserData_world |].
  cbv zeta.
  destruct (clearAllUserData_frame ce w) as [Hdb [Hu [Hdemo Hl]]].
  set (w' := snd (clearAllUserData ce w)) in *.
  assert (Hmode : isRealBackendAvailable w' = isRealBackendAvailable w).
  { unfold isRealBackendAvailable. now rewrite Hdb, Hu, Hdemo. }
  assert (Hload : forall name key q,
             (key = ANALYSIS_KEY \/ key = CHAT_KEY \/ key = TOOLS_KEY) ->
             cloud_silent q name w = true ->
             fst (load name key q w') = Ret []).
  { intros name key q Hk Hs.
    destruct (load_when_silent name key q w') as [w2 [Hq _]].
    { unfold cloud_silent in Hs. now rewrite Hmode. }
    now rewrite Hq, (slot_deleted w w' key Hl Hk). }
  repeat split.
  - apply (slot_deleted w w' _ Hl). auto.
  - apply (slot_deleted w w' _ Hl). auto.
  - apply (slot_deleted w w' _ Hl). auto.
  - intros key H1 H2 H3. rewrite Hl.
    now rewrite !lookup_delete_ne by congruence.
  - exact Hmode.
  - intros q. apply (Hload "analyses" ANALYSIS_KEY). auto.
  - intros q. apply (Hload "chats" CHAT_KEY). auto.
  - intros q. apply (Hload "generations" TOOLS_KEY). auto.
Qed.

Lemma first_rejection_no_faults (col : string) (docs : gmap string jobj) :
  first_rejection no_faults col docs = None.
Proof.
  unfold first_rejection. simpl.
  induction (map_to_list docs) as [|kv l IH]; simpl; [reflexivity | exact IH].
Qed.

Lemma cleared_no_faults_console (uid col : string) (w : world) :
  console (cleared no_faults uid col w) = console w.
Proof.
  unfold cleared. simpl. now rewrite first_rejection_no_faults.
Qed.

(** X17: in cloud mode [clearAllUserData] goes through the three
    collections of the user one after the other, and a failure in one
    does not stop the others: in each, a document is gone afterwards
    exactly when the listing of its collection did not throw and its own
    deletion was not refused.  The documents of other users and other
    collections are left alone.  When Firestore refuses nothing, the
    three collections are empty and nothing is logged. *)
Theorem clearAllUserData_clears_cloud (ce : clear_env) (w : world) (uid : string) :
  isRealBackendAvailable w = true -> currentUser w = Some uid ->
  (forall col k, In col kinds ->
     documents (snd (clearAllUserData ce w)) uid col !! k
     = match list_fault ce col, delete_fault ce col k with
       | None, None => None
       | _, _ => documents w uid col !! k
       end) /\
  (forall uid' col', (uid' <> uid \/ ~ In col' kinds) ->
     documents (snd (clearAllUserData ce w)) uid' col' = documents w uid' col') /\
  (forall col, In col kinds ->
     documents (snd (clearAllUserData no_faults w)) uid col = ∅) /\
  console (snd (clearAllUserData no_faults w)) = console w.
Proof.
  intros Hc Hu.
  assert (Hw : forall ce0,
             snd (clearAllUserData ce0 w)
             = cleared ce0 uid "generations"
                 (cleared ce0 uid "chats"
                    (cleared ce0 uid "analyses" (snd (clearLocalHistory w))))).
  { intros ce0. rewrite clearAllUserData_world. cbn [snd]. cbv zeta.
    now rewrite Hc, Hu. }
  assert (Hlookup : forall ce0 col k, In col kinds ->
             documents (snd (clearAllUserData ce0 w)) uid col !! k
             = match list_fault ce0 col, delete_fault ce0 col k with
               | None, None => None
               | _, _ => documents w uid col !! k
               end).
  { intros ce0 col k Hin. rewrite Hw.
    assert (Hone : forall w0,
               documents (cleared ce0 uid col w0) uid col !! k
               = match list_fault ce0 col, delete_fault ce0 col k with
                 | None, None => None
                 | _, _ => documents w0 uid col !! k
                 end).
    { intros w0. rewrite cleared_documents.
      destruct (list_fault ce0 col); [reflexivity |].
      rewrite delete_all_lookup. now destruct (delete_fault ce0 col k). }
    simpl in Hin. destruct Hin as [<- | [<- | [<- | []]]].
    - rewrite !cleared_documents_ne by congruence. rewrite Hone. reflexivity.
    - rewrite cleared_documents_ne by congruence. rewrite Hone.
      rewrite cleared_documents_ne by congruence. reflexivity.
    - rewrite Hone. rewrite !cleared_documents_ne by congruence. reflexivity. }
  split; [exact (Hlookup ce) | split; [| split]].
  - intros uid' col' Hother. rewrite Hw.
    rewrite !cleared_documents_ne; [reflexivity | | |];
      intros Heq; injection Heq as <- <-; destruct Hother as [H|H];
      try (now apply H); apply H; simpl; auto.
  - intros col Hin. apply map_eq. intros k.
    rewrite (Hlookup no_faults col k Hin). simpl. apply eq_sym, lookup_empty.
  - rewrite Hw, !cleared_no_faults_console. reflexivity.
Qed.

Lemma clearAllUserData_clears_cloud_witness :
  documents (snd (clearAllUserData no_faults stocked)) "u1" "analyses" = ∅.
Proof.
  exact (proj1 (proj2 (proj2
           (clearAllUserData_clears_cloud no_faults stocked "u1"
              eq_refl eq_refl)))
           "analyses" (or_introl eq_refl)).
Defined.

(** ** Initials *)

Lemma length_substring_le (n : nat) (s : string) :
  (String.length (substring 0 n s) <= n)%nat.
Proof.
  revert s. induction n as [|n IH]; intros [|c s]; simpl; try lia.
  specialize (IH s). lia.
Qed.

Lemma split_spaces_nonempty (s : string) : split_spaces s <> [].
Proof.
  destruct s as [|c s]; simpl; [discriminate |].
  destruct (Ascii.eqb c " "); [discriminate |].
  destruct (split_spaces s); discriminate.
Qed.

Lemma split_spaces_app (a b : string) :
  split_spaces (a ++ String " " b) = (split_spaces a ++ split_spaces b)%list.
Proof.
  induction a as [|c a IH]; simpl; [reflexivity |].
  destruct (Ascii.eqb c " "); [now rewrite IH |].
  rewrite IH. destruct (split_spaces a) eqn:E; [| reflexivity].
  now apply split_spaces_nonempty in E.
Qed.

Lemma first_letters_app (u v : list string) :
  first_letters (u ++ v) = (first_letters u ++ first_letters v)%string.
Proof.
  induction u as [|[|c w] u IH]; simpl; [reflexivity | exact IH |].
  now rewrite IH.
Qed.

Lemma first_letters_only_spaces (name : string) :
  only_spaces name = true -> first_letters (split_spaces name) = "".
Proof.
  induction name as [|c name IH]; simpl; [reflexivity |].
  intros H. apply andb_true_iff in H as [Hc Hn]. rewrite Hc. simpl.
  exact (IH Hn).
Qed.

(** X18: [getInitials] returns at most two characters, and "U" for a
    missing or empty name.  The letters are taken word by word: the
    initials of [a b] are made of the first letters found in [a] followed
    by those found in [b], so that spaces in a row or at the ends add
    nothing.  A name of spaces only is not given the "U": its initials
    are what the upper case of the empty string gives. *)
Theorem getInitials_properties (toUpperCase : string -> string) :
  (forall name,
     (String.length (getInitials toUpperCase name) <= 2)%nat) /\
  getInitials toUpperCase None = "U" /\
  getInitials toUpperCase (Some "") = "U" /\
  (forall a b,
     getInitials toUpperCase (Some (a ++ String " " b))
     = substring 0 2
         (toUpperCase (first_letters (split_spaces a)
                       ++ first_letters (split_spaces b)))) /\
  (forall name,
     name <> "" -> only_spaces name = true ->
     getInitials toUpperCase (Some name) = substring 0 2 (toUpperCase "")).
Proof.
  split; [| split; [| split; [| split]]].
  - intros [n|]; unfold getInitials; [| simpl; lia].
    destruct (String.eqb n ""); [simpl; lia | apply length_substring_le].
  - reflexivity.
  - reflexivity.
  - intros a b. unfold getInitials.
    destruct (String.eqb (a ++ String " " b) "") eqn:E.
    + apply String.eqb_eq in E. destruct a; discriminate.
    + now rewrite split_spaces_app, first_letters_app.
  - intros name Hne Hs. unfold getInitials.
    destruct (String.eqb name "") eqn:E.
    + apply String.eqb_eq in E. contradiction.
    + now rewrite (first_letters_only_spaces name Hs).
Qed.

(** ** The session that the chat page saves *)

Lemma substring_empty (n : nat) (s : string) :
  substring 0 n s = "" -> n = 0%nat \/ s = "".
Proof. destruct n, s; simpl; auto; discriminate. Qed.

Lemma session_title_bounds (messages : list obj) :
  (1 <= String.length (session_title messages) <= 40)%nat.
Proof.
  unfold session_title.
  destruct (find_user messages) as [m|]; [| simpl; lia].
  destruct (String.eqb (substring 0 40 (text_of m)) "") eqn:E; [simpl; lia |].
  split; [| apply length_substring_le].
  destruct (substring 0 40 (text_of m)); [discriminate | simpl; lia].
Qed.

(** X19: the session that the chat page saves carries the id of the page's
    session, a last message of at most 100 characters and a title of 1 to
    40 characters, and it holds all the messages in order; no session is
    built while the list has one message or none. *)
Theorem autosave_session_bounds (sessionId : string) (now : Z)
    (messages : list obj) :
  match autosave_session sessionId now messages with
  | Some session =>
      (1 < length messages)%nat /\
      get_prop session "id" = VStr sessionId /\
      get_prop session "messages" = VArr (map VObj messages) /\
      exists lastMessage title,
        get_prop session "lastMessage" = VStr lastMessage /\
        (String.length lastMessage <= 100)%nat /\
        get_prop session "title" = VStr title /\
        (1 <= String.length title <= 40)%nat
  | None => (length messages <= 1)%nat
  end.
Proof.
  unfold autosave_session.
  destruct (1 <? Z.of_nat (length messages)) eqn:E.
  - apply Z.ltb_lt in E. split; [lia |].
    split; [reflexivity | split; [reflexivity |]].
    eexists _, _. split; [reflexivity |].
    split; [apply length_substring_le |].
    split; [reflexivity | apply session_title_bounds].
  - apply Z.ltb_ge in E. lia.
Qed.

(** X20: autosaving a conversation as it grows keeps one local entry for
    it: starting from a local chat list that does not hold the session,
    after two autosaves of the page's session the list holds exactly one
    entry with its id, the later one. *)
Theorem autosave_keeps_one_entry (sessionId : string) (t1 t2 : Z)
    (earlier later : list obj) (first second : obj) (e1 e2 : env) (w : world) :
  autosave_session sessionId t1 earlier = Some first ->
  autosave_session sessionId t2 later = Some second ->
  existsb (same_id first) (slot w CHAT_KEY) = false ->
  List.filter (same_id second)
    (slot (snd (saveChatSession e2 second (snd (saveChatSession e1 first w))))
       CHAT_KEY)
  = [stringify_obj second].
Proof.
  unfold autosave_session. intros H1 H2 Hnew.
  destruct (1 <? Z.of_nat (length earlier)); [| discriminate].
  destruct (1 <? Z.of_nat (length later)); [| discriminate].
  injection H1 as <-. injection H2 as <-.
  rewrite !saveChatSession_chat_update.
  set (first := [("id", VStr sessionId); _; _; _; _]) in *.
  set (second := [("id", VStr sessionId); _; _; _; _]).
  assert (Hsame : same_id first = same_id second) by reflexivity.
  rewrite Hsame in *.
  apply chat_update_twice.
  - rewrite <- Hsame. apply same_id_stored with sessionId. reflexivity.
  - apply same_id_stored with sessionId. reflexivity.
  - rewrite (filter_none _ _ Hnew). simpl. lia.
Qed.

Lemma autosave_keeps_one_entry_witness :
  List.filter (same_id grown)
    (slot (snd (saveChatSession quiet grown
                  (snd (saveChatSession quiet begun six_chats))))
       CHAT_KEY)
  = [stringify_obj grown].
Proof.
  exact (autosave_keeps_one_entry "S9" 1 2 [hello; ask] [hello; ask; answer]
           begun grown quiet quiet six_chats eq_refl eq_refl eq_refl).
Defined.

(** ** The profile document *)

Lemma jget_merge_field_eq (d : jobj) (k : string) (v : json) :
  jget (merge_field d k v) k = Some v.
Proof.
  induction d as [|[k' v'] d IH]; simpl.
  - now rewrite String.eqb_refl.
  - destruct (String.eqb k' k) eqn:E; simpl; rewrite E; [reflexivity | exact IH].
Qed.

Lemma jget_merge_field_ne (d : jobj) (k k' : string) (v : json) :
  k <> k' -> jget (merge_field d k v) k' = jget d k'.
Proof.
  intros Hne. induction d as [|[k0 v0] d IH]; simpl.
  - destruct (String.eqb k k') eqn:E; [| reflexivity].
    apply String.eqb_eq in E. contradiction.
  - destruct (String.eqb k0 k) eqn:E; simpl.
    + apply String.eqb_eq in E. subst k0.
      destruct (String.eqb k k') eqn:E'; [| reflexivity].
      apply String.eqb_eq in E'. contradiction.
    + destruct (String.eqb k0 k'); [reflexivity | exact IH].
Qed.

Lemma profiles_with_documents (w : world) (docs : gmap string jobj) :
  profiles (with_documents w "" "users" docs) = docs.
Proof. apply documents_with_documents. Qed.

Lemma createUserDocument_frame (toUpperCase : string -> string)
    (ue : user_env) (u : user) (s : session) :
  let s' := createUserDocument toUpperCase ue u s in
  localStorage (app s') = localStorage (app s) /\
  demo_auth_active (app s') = demo_auth_active (app s) /\
  db (app s') = db (app s) /\ currentUser (app s') = currentUser (app s) /\
  isConfigValid s' = isConfigValid s /\ auth_ready s' = auth_ready s /\
  observed s' = observed s /\
  (forall uid col, (uid, col) <> ("", "users") ->
     documents (app s') uid col = documents (app s) uid col) /\
  (forall other, other <> user_uid u ->
     profiles (app s') !! other = profiles (app s) !! other).
Proof.
  cbv zeta. unfold createUserDocument.
  destruct (negb (onLine ue)); [now repeat split |].
  destruct (negb (isConfigValid s) || negb (db (app s)) || isDemoActive (app s));
    [now repeat split |].
  destruct (user_fault ue) as [err|].
  - destruct (negb _ && negb _); now repeat split.
  - destruct (profiles (app s) !! user_uid u) as [d|]; cbn;
      repeat split; try reflexivity;
      try (intros uid col Hne; apply documents_with_documents_ne; congruence);
      intros other Hne; rewrite profiles_with_documents;
      now rewrite lookup_insert_ne by congruence.
Qed.

Lemma createUserDocument_existing (toUpperCase : string -> string)
    (ue : user_env) (u : user) (s : session) (d : jobj) :
  profiles (app s) !! user_uid u = Some d ->
  profiles (app (createUserDocument toUpperCase ue u s)) !! user_uid u
  = Some (if profile_written ue s
          then merge_field d "lastLogin" (JStr (login_now ue)) else d).
Proof.
  intros Hd. unfold createUserDocument, profile_written.
  destruct (onLine ue); simpl; [| exact Hd].
  destruct (isConfigValid s); simpl; [| exact Hd].
  destruct (db (app s)); simpl; [| exact Hd].
  destruct (isDemoActive (app s)); simpl; [exact Hd |].
  destruct (user_fault ue) as [err|]; simpl.
  - destruct (negb _ && negb _); exact Hd.
  - rewrite Hd. cbn. rewrite profiles_with_documents.
    now rewrite lookup_insert_eq.
Qed.

(** X21: [createUserDocument] never overwrites a profile: when the user
    has a document, every field but [lastLogin] stays as it is, and
    [lastLogin] is set when the write goes through.  When the user has
    none and the write goes through, the document is created with the
    uid, the initials of the display name and the two dates, so that a
    second sign-in keeps the date of creation of the first.  Local
    storage, the mode and the documents of the history are never
    touched. *)
Theorem createUserDocument_keeps_profile (toUpperCase : string -> string)
    (ue : user_env) (u : user) (s : session) :
  let s' := createUserDocument toUpperCase ue u s in
  (forall d, profiles (app s) !! user_uid u = Some d ->
     exists d',
       profiles (app s') !! user_uid u = Some d' /\
       (forall k, k <> "lastLogin" -> jget d' k = jget d k) /\
       (profile_written ue s = true ->
        jget d' "lastLogin" = Some (JStr (login_now ue)))) /\
  (profiles (app s) !! user_uid u = None -> profile_written ue s = true ->
   forall ue2,
     profile_written ue2 s = true ->
     exists d,
       profiles (app (createUserDocument toUpperCase ue2 u s')) !! user_uid u
       = Some d /\
       jget d "uid" = Some (JStr (user_uid u)) /\
       jget d "initials"
       = Some (JStr (getInitials toUpperCase (user_displayName u))) /\
       jget d "createdAt" = Some (JStr (created_now ue)) /\
       jget d "lastLogin" = Some (JStr (login_now ue2))) /\
  localStorage (app s') = localStorage (app s) /\
  isRealBackendAvailable (app s') = isRealBackendAvailable (app s) /\
  (forall uid col, (uid, col) <> ("", "users") ->
     documents (app s') uid col = documents (app s) uid col).
Proof.
  cbv zeta.
  destruct (createUserDocument_frame toUpperCase ue u s)
    as [Hls [Hdemo [Hdb [Hcu [Hcfg [Hauth [_ [Hdocs _]]]]]]]].
  split; [| split; [| split; [| split]]].
  - intros d Hd. rewrite (createUserDocument_existing _ _ _ _ _ Hd).
    eexists. split; [reflexivity |]. split.
    + intros k Hk. destruct (profile_written ue s); [| reflexivity].
      apply jget_merge_field_ne. congruence.
    + intros ->. apply jget_merge_field_eq.
  - intros Hnone Hw ue2 Hw2.
    assert (Hfirst : profiles (app (createUserDocument toUpperCase ue u s))
                       !! user_uid u
                     = Some [("uid", JStr (user_uid u));
                             ("email", opt_json (user_email u));
                             ("displayName", opt_json (user_displayName u));
                             ("photoURL", opt_json (user_photoURL u));
                             ("initials",
                               JStr (getInitials toUpperCase (user_displayName u)));
                             ("createdAt", JStr (created_now ue));
                             ("lastLogin", JStr (login_now ue))]).
    { unfold createUserDocument, profile_written in *.
      destruct (onLine ue); [| discriminate].
      destruct (isConfigValid s); [| discriminate].
      destruct (db (app s)); [| discriminate].
      destruct (isDemoActive (app s)); [discriminate |].
      destruct (user_fault ue); [discriminate |]. simpl.
      rewrite Hnone. cbn. rewrite profiles_with_documents.
      now rewrite lookup_insert_eq. }
    rewrite (createUserDocument_existing _ _ _ _ _ Hfirst).
    assert (Hw2' : profile_written ue2 (createUserDocument toUpperCase ue u s)
                   = true).
    { unfold profile_written, isDemoActive in *.
      now rewrite Hcfg, Hdb, Hdemo. }
    rewrite Hw2'. eexists. split; [reflexivity |].
    repeat split.
  - exact Hls.
  - unfold isRealBackendAvailable. now rewrite Hdb, Hcu, Hdemo.
  - exact Hdocs.
Qed.

Lemma createUserDocument_keeps_profile_witness :
  exists d,
    profiles (app (createUserDocument ascii_upper second_visit ada
                     (createUserDocument ascii_upper first_visit ada
                        fresh_session))) !! "u1" = Some d /\
    jget d "uid" = Some (JStr "u1") /\
    jget d "initials" = Some (JStr "AL") /\
    jget d "createdAt" = Some (JStr "t1") /\
    jget d "lastLogin" = Some (JStr "t2").
Proof.
  exact (proj1 (proj2 (createUserDocument_keeps_profile ascii_upper first_visit
                         ada fresh_session))
           eq_refl eq_refl second_visit eq_refl).
Defined.

(** ** Signing in and out *)

Lemma demo_sign_in_mode (s : session) :
  let s' := snd (demo_sign_in s) in
  fst (demo_sign_in s) = Ret MOCK_USER /\
  isDemoActive (app s') = true /\
  isRealBackendAvailable (app s') = false /\
  localStorage (app s') = localStorage (app s) /\
  firestore (app s') = firestore (app s) /\
  console (app s') = console (app s) /\
  observed s'
  = (if mockAuthObserver s then observed s ++ [Some MOCK_USER] else observed s)%list /\
  observed (subscribeToAuthChanges s') = (observed s' ++ [Some MOCK_USER])%list.
Proof.
  cbv zeta. unfold demo_sign_in, notify, subscribeToAuthChanges. simpl.
  destruct (mockAuthObserver s); simpl;
    rewrite ?orb_true_r; simpl; repeat split;
    unfold isRealBackendAvailable; simpl; now rewrite andb_false_r.
Qed.

Lemma isDemoActive_not_real (w : world) :
  isDemoActive w = true -> isRealBackendAvailable w = false.
Proof.
  unfold isDemoActive, isRealBackendAvailable.
  destruct (demo_auth_active w) as [f|]; [| discriminate].
  intros H. apply String.eqb_eq in H. subst f. simpl. now rewrite andb_false_r.
Qed.

Lemma subscribe_in_demo (s : session) :
  isDemoActive (app s) = true ->
  observed (subscribeToAuthChanges s) = (observed s ++ [Some MOCK_USER])%list.
Proof.
  intros H. unfold subscribeToAuthChanges. simpl. rewrite H.
  now rewrite orb_true_r.
Qed.

(** X22: without a usable Firebase configuration, or with the demo flag
    set, each of [registerWithEmail], [loginWithEmail] and
    [signInWithGoogle] returns the mock user whatever the SDK would do,
    leaves the app in demo mode, in which the history adapters do not use
    the cloud, writes nothing to the store or to the local history,
    reports no error with [console.error], tells the registered observer
    the mock user, and a later [subscribeToAuthChanges] is called back
    with the mock user at once. *)
Theorem sign_in_without_firebase (toUpperCase : string -> string)
    (sdk : error + user) (ue : user_env) (s : session) :
  stands_in s = true ->
  Forall (fun sign_in : (error + user) -> user_env -> session ->
                        outcome user * session =>
            let s' := snd (sign_in sdk ue s) in
            fst (sign_in sdk ue s) = Ret MOCK_USER /\
            isDemoActive (app s') = true /\
            isRealBackendAvailable (app s') = false /\
            localStorage (app s') = localStorage (app s) /\
            firestore (app s') = firestore (app s) /\
            console (app s') = console (app s) /\
            observed s'
            = (if mockAuthObserver s then observed s ++ [Some MOCK_USER]
               else observed s)%list /\
            observed (subscribeToAuthChanges s')
            = (observed s' ++ [Some MOCK_USER])%list)
    [registerWithEmail toUpperCase; loginWithEmail toUpperCase;
     signInWithGoogle toUpperCase].
Proof.
  intros Hs. unfold stands_in in Hs.
  repeat apply List.Forall_cons; try apply List.Forall_nil.
  - unfold registerWithEmail. rewrite Hs. apply demo_sign_in_mode.
  - unfold loginWithEmail. rewrite Hs. apply demo_sign_in_mode.
  - unfold signInWithGoogle.
    destruct (isDemoActive (app s)) eqn:Hd.
    + cbv zeta. unfold notify. simpl.
      destruct (mockAuthObserver s) eqn:Ho; simpl;
        repeat split; try assumption;
        try (now apply isDemoActive_not_real);
        now apply subscribe_in_demo.
    + rewrite orb_false_r in Hs. rewrite Hs. apply demo_sign_in_mode.
Qed.

Lemma sign_in_without_firebase_witness :
  Forall (fun sign_in : (error + user) -> user_env -> session ->
                        outcome user * session =>
            let s' := snd (sign_in (inr ada) first_visit unconfigured) in
            fst (sign_in (inr ada) first_visit unconfigured) = Ret MOCK_USER /\
            isDemoActive (app s') = true /\
            isRealBackendAvailable (app s') = false /\
            localStorage (app s') = localStorage (app unconfigured) /\
            firestore (app s') = firestore (app unconfigured) /\
            console (app s') = console (app unconfigured) /\
            observed s'
            = (if mockAuthObserver unconfigured
               then observed unconfigured ++ [Some MOCK_USER]
               else observed unconfigured)%list /\
            observed (subscribeToAuthChanges s')
            = (observed s' ++ [Some MOCK_USER])%list)
    [registerWithEmail ascii_upper; loginWithEmail ascii_upper;
     signInWithGoogle ascii_upper].
Proof.
  exact (sign_in_without_firebase ascii_upper (inr ada) first_visit unconfigured
           eq_refl).
Defined.

(** X23: with Firebase in use, only [signInWithGoogle] turns a failure of
    the SDK into a demo session, and only for the three codes
    unauthorized-domain, operation-not-allowed and api-key-not-valid: it
    then returns the mock user and leaves the app in demo mode with
    nothing logged.  Every other failure is thrown again unchanged and
    logged, the mode and the observer untouched, and [registerWithEmail]
    and [loginWithEmail] throw every failure again and never enter demo
    mode. *)
Theorem signInWithGoogle_falls_back (toUpperCase : string -> string)
    (err : error) (ue : user_env) (s : session) :
  stands_in s = false ->
  let google := signInWithGoogle toUpperCase (inl err) ue s in
  (if falls_back err
   then fst google = Ret MOCK_USER /\
        isDemoActive (app (snd google)) = true /\
        isRealBackendAvailable (app (snd google)) = false /\
        console (app (snd google)) = console (app s)
   else fst google = Throw err /\
        console (app (snd google))
        = (console (app s) ++ [("Error signing in with Google", err)])%list /\
        demo_auth_active (app (snd google)) = demo_auth_active (app s) /\
        observed (snd google) = observed s) /\
  Forall (fun sign_in : (error + user) -> user_env -> session ->
                        outcome user * session =>
            fst (sign_in (inl err) ue s) = Throw err /\
            isDemoActive (app (snd (sign_in (inl err) ue s))) = false /\
            observed (snd (sign_in (inl err) ue s)) = observed s /\
            firestore (app (snd (sign_in (inl err) ue s))) = firestore (app s))
    [registerWithEmail toUpperCase; loginWithEmail toUpperCase].
Proof.
  intros Hs. unfold stands_in in Hs.
  apply orb_false_iff in Hs as [Hs Hd].
  cbv zeta. split.
  - unfold signInWithGoogle, falls_back. rewrite Hd, Hs.
    destruct (_ || _ || _).
    + destruct (demo_sign_in_mode s) as [H1 [H2 [H3 [_ [_ [H6 _]]]]]].
      now repeat split.
    + now repeat split.
  - repeat apply List.Forall_cons; try apply List.Forall_nil.
    + unfold registerWithEmail. rewrite Hs, Hd. simpl. now repeat split.
    + unfold loginWithEmail. rewrite Hs, Hd. simpl.
      destruct (negb _ && negb _ && negb _); now repeat split.
Qed.

Lemma signInWithGoogle_falls_back_witness :
  (fst (signInWithGoogle ascii_upper (inl domain_refused) first_visit
          fresh_session) = Ret MOCK_USER /\
   isDemoActive (app (snd (signInWithGoogle ascii_upper (inl domain_refused)
                             first_visit fresh_session))) = true) /\
  fst (signInWithGoogle ascii_upper (inl popup_closed) first_visit
         fresh_session) = Throw popup_closed.
Proof.
  pose proof (proj1 (signInWithGoogle_falls_back ascii_upper domain_refused
                       first_visit fresh_session eq_refl)) as H1.
  pose proof (proj1 (signInWithGoogle_falls_back ascii_upper popup_closed
                       first_visit fresh_session eq_refl)) as H2.
  cbv zeta in H1, H2.
  exact (conj (conj (proj1 H1) (proj1 (proj2 H1))) (proj1 H2)).
Defined.


